(** * Auto-Turret: the pan-tilt tracking loop of [auto-turret-tracker.py]

    A shallow embedding of the servo helper [set_angle] and of one
    iteration of the [while True] loop of [gen_frames], followed by the
    properties of the loop that the specification states.

    Conventions of the embedding.
    - Python floats are read as exact rationals ([Q]); Python and numpy
      integers are [Z].  [max] and [min] are Python's two-argument
      built-ins, which return their first argument unless the second one
      is strictly larger (resp. smaller).
    - The module-level globals of the script are the fields of [State];
      an iteration is a function from the state and the inputs of that
      iteration to the next state and what the iteration emitted.
    - The collaborators are inputs: the two detector outputs for the
      captured frame, the successive readings of [time.time()], whether
      [capture_array] raised and whether [imencode] succeeded.
    - [math.sin] is a parameter of the development: no property below
      depends on the values it returns. *)

From Stdlib Require Import ZArith QArith Qround Lqa Lia List Bool String.
Import ListNotations.

Open Scope string_scope.
Open Scope Z_scope.
Open Scope Q_scope.
Open Scope list_scope.

(** ** Numbers *)

(** Strict comparison of two rationals, as a boolean. *)
Definition Qltb (x y : Q) : bool :=
  (Qnum x * QDen y <? Qnum y * QDen x)%Z.

(** [int(x)] on a float, and numpy's [astype(int)]: truncation toward zero. *)
Definition Qtrunc (x : Q) : Z := Z.quot (Qnum x) (QDen x).

(** Python's [max(a, b)] and [min(a, b)]. *)
Definition py_max (a b : Q) : Q := if Qltb a b then b else a.
Definition py_min (a b : Q) : Q := if Qltb b a then b else a.

(** [x is not None] *)
Definition is_not_None {A : Type} (x : option A) : bool :=
  match x with Some _ => true | None => false end.

(** ** CONFIG *)

Definition PAN_CH : Z := 0.
Definition TILT_CH : Z := 1.

Definition PAN_MIN : Q := 20.
Definition PAN_MAX : Q := 160.
Definition TILT_MIN : Q := 50.
Definition TILT_MAX : Q := 130.
Definition PAN_CENTER : Q := 90.
Definition TILT_CENTER : Q := 90.

Definition TILT_DIR : Z := (-1).

Definition SCAN_RANGE_PAN : Q := 40.
Definition SCAN_RANGE_TILT : Q := 30.
Definition SCAN_STEP : Z := 1.
Definition SCAN_DELAY : Q := 0.10.
Definition SCAN_WAVES : Q := 4.

Definition CENTER_TOL_X : Z := 8.
Definition CENTER_TOL_Y : Z := 8.
Definition GAIN_PAN : Q := 0.05.
Definition GAIN_TILT : Q := 0.05.
Definition LOST_TIMEOUT : Q := 2.0.

Definition CAM_W : Z := 300.
Definition CAM_H : Z := 225.

Definition FACE_CONF : Q := 0.5.
Definition MIN_FACE_PIX : Z := 225.
Definition FACE_HOLD_SEC : Q := 0.1.

Definition PERSON_CLASS : Z := 15.
Definition PERSON_CONF : Q := 0.5.
Definition MIN_BODY_FRAC : Q := 0.02.

(** Image center: [CX, CY = CAM_W // 2, CAM_H // 2]. *)
Definition CX : Z := (CAM_W / 2)%Z.
Definition CY : Z := (CAM_H / 2)%Z.

(** [math.pi], the double nearest to pi. *)
Definition math_pi : Q := 884279719003555 # 281474976710656.

(** ** What an iteration emits *)

Inductive Event : Type :=
| DutyCycle (ch : Z) (duty : Z)   (* pca.channels[ch].duty_cycle = duty *)
| Sleep (secs : Q)                (* time.sleep(secs) *)
| Warn.                           (* print("[WARN] capture_array failed ...") *)

(** ** Servo setup *)

Definition clamp_angle (ang : Q) : Q := py_max 0.0 (py_min 180.0 ang).

Definition pulse_us (ang : Q) : Q :=
  500.0 + (clamp_angle ang / 180.0) * 1900.0.

Definition duty (ang : Q) : Z := Qtrunc (pulse_us ang * 65535.0 / 20000.0).

Definition set_angle (ch : Z) (ang : Q) : list Event :=
  [DutyCycle ch (duty ang)].

(** ** Detections *)

(** A pixel box [(x1, y1, x2, y2)]. *)
Record Box : Type := mkBox { x1 : Z; y1 : Z; x2 : Z; y2 : Z }.

(** One row [det[0, 0, i, :]] of a detector output: class id, confidence
    and the four normalised corner coordinates. *)
Record Row : Type := mkRow {
  r_cls : Q; r_conf : Q;
  r_x1 : Q; r_y1 : Q; r_x2 : Q; r_y2 : Q }.

(** [(det[0, 0, i, 3:7] * np.array([CAM_W, CAM_H, CAM_W, CAM_H])).astype(int)] *)
Definition to_box (r : Row) : Box :=
  mkBox (Qtrunc (r_x1 r * inject_Z CAM_W)) (Qtrunc (r_y1 r * inject_Z CAM_H))
        (Qtrunc (r_x2 r * inject_Z CAM_W)) (Qtrunc (r_y2 r * inject_Z CAM_H)).

Definition area (b : Box) : Z := ((x2 b - x1 b) * (y2 b - y1 b))%Z.

(** [fx, fy = (x1 + x2) // 2, (y1 + y2) // 2] *)
Definition center (b : Box) : Z * Z :=
  (((x1 b + x2 b) / 2)%Z, ((y1 b + y2 b) / 2)%Z).

(** The loop over the face detector's rows, with its two accumulators
    [best_face] and [best_fconf]. *)
Fixpoint face_loop (rows : list Row) (best_face : option Box) (best_fconf : Q)
  : option Box * Q :=
  match rows with
  | [] => (best_face, best_fconf)
  | r :: rest =>
      let conf := r_conf r in
      if Qltb conf FACE_CONF then face_loop rest best_face best_fconf
      else
        let b := to_box r in
        if (area b <? MIN_FACE_PIX)%Z then face_loop rest best_face best_fconf
        else if Qltb best_fconf conf then face_loop rest (Some b) conf
        else face_loop rest best_face best_fconf
  end.

(** The loop over the person detector's rows, continuing from
    [best_box] and [best_conf]. *)
Fixpoint body_loop (rows : list Row) (best_box : option Box) (best_conf : Q)
  : option Box * Q :=
  match rows with
  | [] => (best_box, best_conf)
  | r :: rest =>
      let conf := r_conf r in
      let cls := Qtrunc (r_cls r) in
      if Qltb conf PERSON_CONF || negb (cls =? PERSON_CLASS)%Z
      then body_loop rest best_box best_conf
      else
        let b := to_box r in
        if Qltb (inject_Z (area b))
                (MIN_BODY_FRAC * inject_Z CAM_W * inject_Z CAM_H)
        then body_loop rest best_box best_conf
        else if Qltb best_conf conf then body_loop rest (Some b) conf
        else body_loop rest best_box best_conf
  end.

(** ** Runtime state *)

Record State : Type := mkState {
  pan : Q;
  tilt : Q;
  scan_dir : Z;
  last_seen : Q;
  last_face_time : Q;
  last_face_box : option Box;
  last_conf : Q;
  last_fx : Z;
  last_fy : Z;
  tracking_mode : string }.

Definition initial_state : State :=
  {| pan := PAN_CENTER; tilt := TILT_CENTER;
     scan_dir := 1;
     last_seen := 0.0;
     last_face_time := 0.0;
     last_face_box := None;
     last_conf := 0.0;
     last_fx := CX; last_fy := CY;
     tracking_mode := "none" |}.

(** ** Inputs of one iteration *)

(** What the two networks return on the captured frame. *)
Record Frame : Type := mkFrame {
  det_f : list Row;    (* net_face.forward() *)
  det_p : list Row }.  (* net_person.forward() *)

Record Tick : Type := mkTick {
  capture : option Frame;  (* None: picam2.capture_array() raised *)
  now_face : Q;            (* time.time() when the face is recorded *)
  now_hold : Q;            (* time.time() in the use_face test *)
  now_act : Q;             (* time.time() of the track-or-scan branch *)
  now_status : Q;          (* time.time() in the status text test *)
  encode_ok : bool }.      (* ret of cv2.imencode *)

(** The text drawn on the frame. *)
Record Hud : Type := mkHud {
  hud_conf : Q;
  hud_pos : Z * Z;
  hud_mode : string;
  hud_status : string }.

Record Outcome : Type := mkOutcome {
  events : list Event;   (* servo writes and sleeps, in order *)
  hud : option Hud;      (* None when the iteration stopped at the capture *)
  yielded : bool }.      (* whether an MJPEG part was yielded *)

(** ** One iteration of [gen_frames] *)

(** Steps 1 and 2 of the iteration: what the detector cascade selected,
    and the remembered face after it. *)
Record Selection : Type := mkSelection {
  sel_face_box : option Box;   (* last_face_box after step 1 *)
  sel_face_time : Q;           (* last_face_time after step 1 *)
  sel_use_face : bool;         (* use_face *)
  sel_fconf : Q;               (* best_fconf *)
  sel_box : option Box;        (* best_box *)
  sel_conf : Q;                (* best_conf *)
  sel_mode : string }.         (* tracking_mode *)

Definition select (st : State) (tk : Tick) (frame : Frame) : Selection :=
  (* ---- 1) FACE detection *)
  let '(best_face, best_fconf) := face_loop (det_f frame) None 0.0 in
  let '(face_box, face_time) :=
    match best_face with
    | Some b => (Some b, now_face tk)
    | None => (last_face_box st, last_face_time st)
    end in
  let use_face :=
    Qltb (now_hold tk - face_time) FACE_HOLD_SEC && is_not_None face_box in
  let mode := if use_face then "face" else "none" in
  let '(best_box, best_conf) :=
    if use_face then (face_box, best_fconf) else (None, 0.0) in
  (* ---- 2) BODY detection if no face *)
  if String.eqb mode "none" then
    let '(best_box, best_conf) := body_loop (det_p frame) best_box best_conf in
    mkSelection face_box face_time use_face best_fconf best_box best_conf
      (if is_not_None best_box then "body" else mode)
  else
    mkSelection face_box face_time use_face best_fconf best_box best_conf mode.

Section Loop.

(** The sign of the tilt correction.  The script sets it with
    [TILT_DIR] and documents it as the value to flip on an inverted
    rig; the iteration is written over it. *)
Variable tilt_direction : Z.

(** [math.sin] *)
Variable math_sin : Q -> Q.

(** Servo adjust, pan axis. *)
Definition track_pan (pan0 : Q) (fx : Z) : Q * list Event :=
  let err_x := (fx - CX)%Z in
  if (Z.abs err_x >? CENTER_TOL_X)%Z then
    let pan1 := pan0 - inject_Z err_x * GAIN_PAN in
    let pan2 := py_max PAN_MIN (py_min PAN_MAX pan1) in
    (pan2, set_angle PAN_CH pan2)
  else (pan0, []).

(** Servo adjust, tilt axis. *)
Definition track_tilt (tilt0 : Q) (fy : Z) : Q * list Event :=
  let err_y := (fy - CY)%Z in
  if (Z.abs err_y >? CENTER_TOL_Y)%Z then
    let tilt1 := tilt0 + inject_Z (tilt_direction * err_y) * GAIN_TILT in
    let tilt2 := py_max TILT_MIN (py_min TILT_MAX tilt1) in
    (tilt2, set_angle TILT_CH tilt2)
  else (tilt0, []).

(** The body of [if now - last_seen > LOST_TIMEOUT]: one scan step.
    Returns the new pan, tilt and scan direction and the events. *)
Definition scan_step (pan0 : Q) (dir0 : Z) : Q * Q * Z * list Event :=
  let pan1 := pan0 + inject_Z (SCAN_STEP * dir0) in
  let '(pan2, dir2) :=
    if Qltb PAN_MAX pan1 || Qltb pan1 PAN_MIN then
      let dir1 := (dir0 * -1)%Z in
      (pan1 + inject_Z (SCAN_STEP * dir1), dir1)
    else (pan1, dir0) in
  let t_norm := (pan2 - PAN_CENTER) / SCAN_RANGE_PAN in
  let tilt1 :=
    TILT_CENTER
    + SCAN_RANGE_TILT * math_sin (math_pi * SCAN_WAVES * t_norm) in
  let tilt2 := py_max TILT_MIN (py_min TILT_MAX tilt1) in
  (pan2, tilt2, dir2,
   set_angle PAN_CH pan2 ++ set_angle TILT_CH tilt2 ++ [Sleep SCAN_DELAY]).

(** Simple status text. *)
Definition status_text (detected : bool) (now seen : Q) : string :=
  if detected then "Tracking"
  else if Qltb (now - seen) LOST_TIMEOUT then "Target lost (hold)"
  else "Scanning".

Definition draw_hud (st : State) (status : string) : Hud :=
  mkHud (last_conf st) (last_fx st, last_fy st) (tracking_mode st) status.

(** One pass through the body of [while True]. *)
Definition gen_frames_iter (st : State) (tk : Tick) : State * Outcome :=
  match capture tk with
  | None =>
      (* except: print, sleep(0.5), continue *)
      (st, mkOutcome [Warn; Sleep 0.5] None false)
  | Some frame =>
      let s := select st tk frame in
      match sel_box s with
      | Some b =>
          (* ---- Track *)
          let '(fx, fy) := center b in
          let '(pan', ev_pan) := track_pan (pan st) fx in
          let '(tilt', ev_tilt) := track_tilt (tilt st) fy in
          let st' :=
            {| pan := pan'; tilt := tilt';
               scan_dir := scan_dir st;
               last_seen := now_act tk;
               last_face_time := sel_face_time s;
               last_face_box := sel_face_box s;
               last_conf := sel_conf s;
               last_fx := fx; last_fy := fy;
               tracking_mode := sel_mode s |} in
          (st',
           mkOutcome (ev_pan ++ ev_tilt)
             (Some (draw_hud st'
                      (status_text true (now_status tk) (last_seen st'))))
             (encode_ok tk))
      | None =>
          (* ---- No target, maybe scan *)
          let now := now_act tk in
          let '(pan', tilt', dir', ev) :=
            if Qltb LOST_TIMEOUT (now - last_seen st)
            then scan_step (pan st) (scan_dir st)
            else (pan st, tilt st, scan_dir st, []) in
          let st' :=
            {| pan := pan'; tilt := tilt';
               scan_dir := dir';
               last_seen := last_seen st;
               last_face_time := sel_face_time s;
               last_face_box := sel_face_box s;
               last_conf := last_conf st;
               last_fx := last_fx st; last_fy := last_fy st;
               tracking_mode := sel_mode s |} in
          (st',
           mkOutcome ev
             (Some (draw_hud st'
                      (status_text false (now_status tk) (last_seen st'))))
             (encode_ok tk))
      end
  end.

(** The loop, on a finite sequence of iterations: the state at the end
    of each iteration, in order. *)
Fixpoint trace (st : State) (ticks : list Tick) : list State :=
  match ticks with
  | [] => []
  | tk :: rest =>
      let st' := fst (gen_frames_iter st tk) in
      st' :: trace st' rest
  end.

(** The state after the last iteration, and everything emitted. *)
Fixpoint gen_frames (st : State) (ticks : list Tick)
  : State * list Outcome :=
  match ticks with
  | [] => (st, [])
  | tk :: rest =>
      let '(st', out) := gen_frames_iter st tk in
      let '(st'', outs) := gen_frames st' rest in
      (st'', out :: outs)
  end.

(** The state after the last iteration. *)
Definition state_after (st : State) (ticks : list Tick) : State :=
  fst (gen_frames st ticks).

End Loop.

(** ** Vocabulary of the properties *)

(** A sine that is zero everywhere, to run the loop on concrete inputs. *)
Definition sin_zero (x : Q) : Q := 0.

(** The duty-cycle values that correspond to pulses of 500 and 2400
    microseconds on the 20 ms period. *)
Definition duty_is_safe (e : Event) : Prop :=
  match e with
  | DutyCycle _ d => (1638 <= d <= 7864)%Z
  | _ => True
  end.

(** The mechanical limits of the two axes. *)
Definition pan_in_bounds (p : Q) : Prop := PAN_MIN <= p <= PAN_MAX.
Definition tilt_in_bounds (t : Q) : Prop := TILT_MIN <= t <= TILT_MAX.

Definition pose_in_bounds (st : State) : Prop :=
  pan_in_bounds (pan st) /\ tilt_in_bounds (tilt st).


(** The face stage accepted no candidate in this iteration: either the
    capture failed or no row of the face detector passed the filters. *)
Definition no_accepted_face (tk : Tick) : Prop :=
  match capture tk with
  | None => True
  | Some frame => fst (face_loop (det_f frame) None 0.0) = None
  end.

(** A row of the person detector that passes the three filters of the
    body stage: person class, confidence at least the threshold, pixel
    area at least [MIN_BODY_FRAC] of the frame. *)
Definition person_candidate (r : Row) : Prop :=
  Qtrunc (r_cls r) = PERSON_CLASS /\
  PERSON_CONF <= r_conf r /\
  MIN_BODY_FRAC * inject_Z CAM_W * inject_Z CAM_H
    <= inject_Z (area (to_box r)).

(** ** Concrete inputs *)

(** A face row of confidence 0.9 whose pixel box is (150, 56, 171, 184),
    of center (160, 120). *)
Definition face_row_09 : Row := mkRow 0 0.9 0.5 0.25 (73 # 128) (105 # 128).

(** The same box at confidence 0.3, below [FACE_CONF]. *)
Definition face_row_03 : Row := mkRow 0 0.3 0.5 0.25 (73 # 128) (105 # 128).

(** Another face row, of confidence 0.75, whose pixel box is
    (37, 28, 112, 84), of center (74, 56). *)
Definition face_row_075 : Row := mkRow 0 0.75 0.125 0.125 0.375 0.375.

(** A person row of confidence 0.9 covering the box (75, 56, 225, 168). *)
Definition body_row_09 : Row := mkRow 15 0.9 0.25 0.25 0.75 0.75.

(** A processed frame at one clock reading [t], with the given rows. *)
Definition tick_at (t : Q) (faces bodies : list Row) : Tick :=
  mkTick (Some (mkFrame faces bodies)) t t t t true.

(** A face row accepted by the face stage. *)
Definition face_candidate (r : Row) : Prop :=
  FACE_CONF <= r_conf r /\ (MIN_FACE_PIX <= area (to_box r))%Z.

(** An iteration whose capture raised, at clock reading [t]. *)
Definition failed_tick (t : Q) : Tick := mkTick None t t t t true.

(** The state with the pan axis at [p], scanning in direction [d]. *)
Definition scanning_at (p : Q) (d : Z) : State :=
  {| pan := p; tilt := TILT_CENTER;
     scan_dir := d;
     last_seen := 0.0;
     last_face_time := 0.0;
     last_face_box := None;
     last_conf := 0.0;
     last_fx := CX; last_fy := CY;
     tracking_mode := "none" |}.

(** ** Status endpoint and shutdown *)

(** [api_status]: the three globals it returns ([last_conf],
    [tracking_mode], [last_seen]), read between two iterations. *)
Definition api_status (st : State) : Q * string * Q :=
  (last_conf st, tracking_mode st, last_seen st).

(** The servo writes of the [finally] block of the main program:
    [for ch in (PAN_CH, TILT_CH): pca.channels[ch].duty_cycle = 0]. *)
Definition shutdown : list Event :=
  map (fun ch => DutyCycle ch 0) [PAN_CH; TILT_CH].

(** ** Vocabulary of the further properties *)

(** The three values [tracking_mode] is meant to take. *)
Definition is_mode (m : string) : Prop :=
  m = "face" \/ m = "body" \/ m = "none".

(** A servo write goes to the pan or to the tilt channel. *)
Definition on_servo_channel (e : Event) : Prop :=
  match e with
  | DutyCycle ch _ => ch = PAN_CH \/ ch = TILT_CH
  | _ => True
  end.

Definition is_sleep (e : Event) : bool :=
  match e with Sleep _ => true | _ => false end.

(** A servo write carries the duty cycle of the pan angle [p] on the pan
    channel or of the tilt angle [t] on the tilt channel. *)
Definition commands_pose (p t : Q) (e : Event) : Prop :=
  match e with
  | DutyCycle ch d =>
      (ch = PAN_CH /\ d = duty p) \/ (ch = TILT_CH /\ d = duty t)
  | _ => True
  end.

(** The normalised corners of a row lie in the unit square, in order. *)
Definition row_in_frame (r : Row) : Prop :=
  0 <= r_x1 r /\ r_x1 r <= r_x2 r /\ r_x2 r <= 1 /\
  0 <= r_y1 r /\ r_y1 r <= r_y2 r /\ r_y2 r <= 1.

(** A pixel box lies in the frame, corners in order. *)
Definition box_in_frame (b : Box) : Prop :=
  (0 <= x1 b /\ x1 b <= x2 b /\ x2 b <= CAM_W /\
   0 <= y1 b /\ y1 b <= y2 b /\ y2 b <= CAM_H)%Z.

Section Sweep.

Variable tilt_direction : Z.
Variable math_sin : Q -> Q.

(** Every iteration of the run takes a scan step: a frame is captured,
    the cascade selects nothing and the loss timeout has expired. *)
Fixpoint scans_only (st : State) (ticks : list Tick) : Prop :=
  match ticks with
  | [] => True
  | tk :: rest =>
      (exists frame,
          capture tk = Some frame /\
          sel_box (select st tk frame) = None /\
          LOST_TIMEOUT < now_act tk - last_seen st) /\
      scans_only (fst (gen_frames_iter tilt_direction math_sin st tk)) rest
  end.

End Sweep.

(** The inputs of an iteration with another result of [cv2.imencode]. *)
Definition with_encode_ok (tk : Tick) (ok : bool) : Tick :=
  mkTick (capture tk) (now_face tk) (now_hold tk) (now_act tk)
         (now_status tk) ok.

(** [set_angle] converts the angle [a] without clamping it. *)
Definition pulse_is_linear (a : Q) : Prop :=
  pulse_us a == 500 + a * (1900 # 180).
(** ** Comparisons and clamps *)

Lemma Qltb_true (x y : Q) : Qltb x y = true <-> x < y.
Proof. unfold Qltb, Qlt. apply Z.ltb_lt. Qed.

Lemma Qltb_false (x y : Q) : Qltb x y = false <-> y <= x.
Proof. unfold Qltb, Qle. apply Z.ltb_ge. Qed.

(** Case analysis on the first [Qltb] test of the goal. *)
Ltac case_Qltb :=
  match goal with
  | |- context [Qltb ?a ?b] =>
      let E := fresh "E" in
      destruct (Qltb a b) eqn:E;
      [apply Qltb_true in E | apply Qltb_false in E]
  end.

Lemma py_min_cases (a b : Q) :
  (b < a /\ py_min a b = b) \/ (a <= b /\ py_min a b = a).
Proof.
  unfold py_min. case_Qltb; [left | right]; split; auto.
Qed.

Lemma py_max_cases (a b : Q) :
  (a < b /\ py_max a b = b) \/ (b <= a /\ py_max a b = a).
Proof.
  unfold py_max. case_Qltb; [left | right]; split; auto.
Qed.

(** Case analysis on a clamp [py_max lo (py_min hi x)] of the goal. *)
Ltac case_clamp lo hi x :=
  let H1 := fresh "Hmin" in
  let H2 := fresh "Hmax" in
  let E1 := fresh "Emin" in
  let E2 := fresh "Emax" in
  destruct (py_max_cases lo (py_min hi x)) as [[H2 E2] | [H2 E2]];
  rewrite E2; clear E2;
  destruct (py_min_cases hi x) as [[H1 E1] | [H1 E1]];
  rewrite ?E1 in *; clear E1.

Lemma py_clamp_bounds (lo hi x : Q) :
  lo <= hi -> lo <= py_max lo (py_min hi x) <= hi.
Proof.
  intros Hlh. case_clamp lo hi x; lra.
Qed.

Lemma py_clamp_lt (lo hi x y : Q) :
  x < y -> lo < y -> py_max lo (py_min hi x) < y.
Proof.
  intros Hx Hlo. case_clamp lo hi x; lra.
Qed.

Lemma pan_bounds_ordered : PAN_MIN <= PAN_MAX.
Proof. unfold PAN_MIN, PAN_MAX. lra. Qed.

Lemma tilt_bounds_ordered : TILT_MIN <= TILT_MAX.
Proof. unfold TILT_MIN, TILT_MAX. lra. Qed.

(** ** The pose stays inside the mechanical limits *)

Section LoopFacts.

Variable tilt_direction : Z.
Variable math_sin : Q -> Q.

Lemma track_pan_bounds (p : Q) (fx : Z) :
  pan_in_bounds p -> pan_in_bounds (fst (track_pan p fx)).
Proof.
  intros Hp. unfold track_pan.
  destruct (Z.abs (fx - CX) >? CENTER_TOL_X)%Z; simpl; [|exact Hp].
  apply py_clamp_bounds, pan_bounds_ordered.
Qed.

Lemma track_tilt_bounds (t : Q) (fy : Z) :
  tilt_in_bounds t ->
  tilt_in_bounds (fst (track_tilt tilt_direction t fy)).
Proof.
  intros Ht. unfold track_tilt.
  destruct (Z.abs (fy - CY) >? CENTER_TOL_Y)%Z; simpl; [|exact Ht].
  apply py_clamp_bounds, tilt_bounds_ordered.
Qed.

(** Stepping back after an overshoot lands on the starting angle. *)
Lemma scan_step_back (p : Q) (d : Z) :
  p + inject_Z (SCAN_STEP * d) + inject_Z (SCAN_STEP * (d * -1)) == p.
Proof.
  replace (SCAN_STEP * (d * -1))%Z with (- (SCAN_STEP * d))%Z by lia.
  rewrite inject_Z_opp. lra.
Qed.

Lemma scan_step_bounds (p : Q) (d : Z) :
  pan_in_bounds p ->
  match scan_step math_sin p d with
  | (p', t', _, _) => pan_in_bounds p' /\ tilt_in_bounds t'
  end.
Proof.
  intros Hp. unfold scan_step.
  destruct (Qltb PAN_MAX (p + inject_Z (SCAN_STEP * d))
            || Qltb (p + inject_Z (SCAN_STEP * d)) PAN_MIN) eqn:Hout.
  - split; [|apply py_clamp_bounds, tilt_bounds_ordered].
    unfold pan_in_bounds in *. rewrite scan_step_back. exact Hp.
  - split; [|apply py_clamp_bounds, tilt_bounds_ordered].
    apply orb_false_iff in Hout. destruct Hout as [H1 H2].
    apply Qltb_false in H1, H2. split; assumption.
Qed.

Lemma iter_pose_in_bounds (st : State) (tk : Tick) :
  pose_in_bounds st ->
  pose_in_bounds (fst (gen_frames_iter tilt_direction math_sin st tk)).
Proof.
  intros [Hp Ht]. unfold gen_frames_iter.
  destruct (capture tk) as [frame|]; [|split; assumption].
  destruct (sel_box (select st tk frame)) as [b|].
  - destruct (center b) as [fx fy].
    pose proof (track_pan_bounds (pan st) fx Hp) as Hp'.
    pose proof (track_tilt_bounds (tilt st) fy Ht) as Ht'.
    destruct (track_pan (pan st) fx) as [p' ev1].
    destruct (track_tilt tilt_direction (tilt st) fy) as [t' ev2].
    split; assumption.
  - destruct (Qltb LOST_TIMEOUT (now_act tk - last_seen st)).
    + pose proof (scan_step_bounds (pan st) (scan_dir st) Hp) as Hs.
      destruct (scan_step math_sin (pan st) (scan_dir st))
        as [[[p' t'] d'] ev].
      exact Hs.
    + split; assumption.
Qed.

Lemma trace_pose_in_bounds (ticks : list Tick) :
  forall st, pose_in_bounds st ->
             Forall pose_in_bounds (trace tilt_direction math_sin st ticks).
Proof.
  induction ticks as [|tk rest IH]; intros st Hst; simpl.
  - constructor.
  - pose proof (iter_pose_in_bounds st tk Hst) as Hnext.
    constructor; [exact Hnext | apply IH; exact Hnext].
Qed.

End LoopFacts.

Lemma initial_pose_in_bounds : pose_in_bounds initial_state.
Proof.
  unfold pose_in_bounds, pan_in_bounds, tilt_in_bounds; simpl.
  unfold PAN_MIN, PAN_MAX, PAN_CENTER, TILT_MIN, TILT_MAX, TILT_CENTER.
  lra.
Qed.

(** C1.  The initial pose [(PAN_CENTER, TILT_CENTER)] lies within the
    limits, and whatever the detectors, the clock, the camera and the
    encoder do over any sequence of iterations, at the end of every
    iteration the pan angle is within [[PAN_MIN, PAN_MAX]] and the tilt
    angle within [[TILT_MIN, TILT_MAX]]. *)
Theorem pose_always_in_bounds :
  forall (tilt_direction : Z) (math_sin : Q -> Q) (ticks : list Tick),
    pose_in_bounds initial_state /\
    Forall pose_in_bounds
      (trace tilt_direction math_sin initial_state ticks).
Proof.
  intros td ms ticks. split.
  - exact initial_pose_in_bounds.
  - apply trace_pose_in_bounds, initial_pose_in_bounds.
Qed.

(** ** Capture failures *)

(** C8.  When [capture_array] raises, the iteration prints a warning,
    sleeps 0.5 s and yields nothing; every field of the state is left
    as it was, and the loop goes on with the next iteration from that
    same state. *)
Theorem capture_failure_preserves_state :
  forall (tilt_direction : Z) (math_sin : Q -> Q)
         (st : State) (tk : Tick) (rest : list Tick),
    capture tk = None ->
    gen_frames_iter tilt_direction math_sin st tk
      = (st, mkOutcome [Warn; Sleep 0.5] None false) /\
    fst (gen_frames tilt_direction math_sin st (tk :: rest))
      = fst (gen_frames tilt_direction math_sin st rest) /\
    trace tilt_direction math_sin st (tk :: rest)
      = st :: trace tilt_direction math_sin st rest.
Proof.
  intros td ms st tk rest Hfail.
  assert (Hiter : gen_frames_iter td ms st tk
                  = (st, mkOutcome [Warn; Sleep 0.5] None false)).
  { unfold gen_frames_iter. rewrite Hfail. reflexivity. }
  split; [exact Hiter|]. split.
  - simpl. rewrite Hiter.
    destruct (gen_frames td ms st rest) as [st'' outs]. reflexivity.
  - simpl. rewrite Hiter. reflexivity.
Qed.

Lemma capture_failure_preserves_state_witness :
  capture (failed_tick 7) = None /\
  gen_frames_iter TILT_DIR sin_zero initial_state (failed_tick 7)
    = (initial_state, mkOutcome [Warn; Sleep 0.5] None false).
Proof.
  split; [reflexivity|].
  apply (capture_failure_preserves_state TILT_DIR sin_zero initial_state
           (failed_tick 7) []).
  reflexivity.
Defined.

(** ** The servo helper *)

Lemma clamp_angle_bounds (ang : Q) : 0 <= clamp_angle ang <= 180.
Proof.
  unfold clamp_angle.
  pose proof (py_clamp_bounds 0.0 180.0 ang) as H.
  lra.
Qed.

Lemma pulse_us_bounds (ang : Q) : 500 <= pulse_us ang <= 2400.
Proof.
  pose proof (clamp_angle_bounds ang) as Hc. unfold pulse_us.
  assert (E : clamp_angle ang / 180.0 == clamp_angle ang * (1 # 180))
    by field.
  rewrite E. lra.
Qed.

Lemma Qtrunc_floor (q : Q) : 0 <= q -> Qtrunc q = Qfloor q.
Proof.
  destruct q as [n d]. unfold Qle, Qtrunc, Qfloor. simpl. intros H.
  apply Z.quot_div_nonneg; lia.
Qed.

Lemma duty_bounds (ang : Q) : (1638 <= duty ang <= 7864)%Z.
Proof.
  unfold duty. destruct (pulse_us_bounds ang) as [Hlo Hhi].
  assert (E : pulse_us ang * 65535.0 / 20000.0
              == pulse_us ang * (65535 # 20000)) by field.
  rewrite Qtrunc_floor by (rewrite E; lra).
  split.
  - change 1638%Z with (Qfloor (inject_Z 1638)) at 1.
    apply Qfloor_resp_le. rewrite E. unfold inject_Z. lra.
  - change 7864%Z with (Qfloor (78642 # 10)).
    apply Qfloor_resp_le. rewrite E. lra.
Qed.

Lemma set_angle_duty_safe (ch : Z) (ang : Q) :
  Forall duty_is_safe (set_angle ch ang).
Proof.
  unfold set_angle. constructor; [apply duty_bounds | constructor].
Qed.

(** C9.  Whatever angle it is given, also outside [[0, 180]],
    [set_angle] first clamps it to [[0, 180]], so the pulse width it
    converts lies in [[500, 2400]] microseconds (an angle of at most 0
    gives 500 and an angle of at least 180 gives 2400) and the duty
    cycle it writes lies between the corresponding values 1638 and
    7864.  The clamp is part of [set_angle] itself and holds for every
    caller, whether or not the caller clamped to the axis limits. *)
Theorem set_angle_pulse_in_safe_range :
  forall (ch : Z) (ang : Q),
    set_angle ch ang
      = [DutyCycle ch (Qtrunc (pulse_us ang * 65535.0 / 20000.0))] /\
    pulse_us ang = 500.0 + (py_max 0.0 (py_min 180.0 ang) / 180.0) * 1900.0 /\
    0 <= clamp_angle ang <= 180 /\
    500 <= pulse_us ang <= 2400 /\
    (ang <= 0 -> pulse_us ang == 500) /\
    (180 <= ang -> pulse_us ang == 2400) /\
    Forall duty_is_safe (set_angle ch ang).
Proof.
  intros ch ang. split; [reflexivity|]. split; [reflexivity|].
  pose proof (clamp_angle_bounds ang) as Hc.
  split; [exact Hc|]. split; [apply pulse_us_bounds|].
  unfold pulse_us.
  assert (E : clamp_angle ang / 180.0 == clamp_angle ang * (1 # 180))
    by field.
  rewrite E. split; [|split].
  - intros Hneg. assert (Hz : clamp_angle ang == 0); [|lra].
    unfold clamp_angle. case_clamp 0.0 180.0 ang; lra.
  - intros Hbig. assert (Hz : clamp_angle ang == 180); [|lra].
    unfold clamp_angle. case_clamp 0.0 180.0 ang; lra.
  - apply set_angle_duty_safe.
Qed.

(** ** The three branches of an iteration *)

Section Branches.

Variable tilt_direction : Z.
Variable math_sin : Q -> Q.
Variables (st : State) (tk : Tick) (frame : Frame).
Hypothesis Hcapture : capture tk = Some frame.

(** A target was selected: the servo adjust branch. *)
Lemma iter_track (b : Box) :
  sel_box (select st tk frame) = Some b ->
  gen_frames_iter tilt_direction math_sin st tk =
  (let s := select st tk frame in
   let st' :=
     {| pan := fst (track_pan (pan st) (fst (center b)));
        tilt := fst (track_tilt tilt_direction (tilt st) (snd (center b)));
        scan_dir := scan_dir st;
        last_seen := now_act tk;
        last_face_time := sel_face_time s;
        last_face_box := sel_face_box s;
        last_conf := sel_conf s;
        last_fx := fst (center b); last_fy := snd (center b);
        tracking_mode := sel_mode s |} in
   (st',
    mkOutcome
      (snd (track_pan (pan st) (fst (center b)))
       ++ snd (track_tilt tilt_direction (tilt st) (snd (center b))))
      (Some (draw_hud st' "Tracking"))
      (encode_ok tk))).
Proof.
  intros Hsel. unfold gen_frames_iter. rewrite Hcapture, Hsel.
  destruct (center b) as [fx fy]. simpl fst. simpl snd.
  destruct (track_pan (pan st) fx) as [p' ev1].
  destruct (track_tilt tilt_direction (tilt st) fy) as [t' ev2].
  reflexivity.
Qed.

(** No target and the loss timeout has not expired: nothing moves. *)
Lemma iter_idle :
  sel_box (select st tk frame) = None ->
  now_act tk - last_seen st <= LOST_TIMEOUT ->
  gen_frames_iter tilt_direction math_sin st tk =
  (let s := select st tk frame in
   let st' :=
     {| pan := pan st; tilt := tilt st;
        scan_dir := scan_dir st;
        last_seen := last_seen st;
        last_face_time := sel_face_time s;
        last_face_box := sel_face_box s;
        last_conf := last_conf st;
        last_fx := last_fx st; last_fy := last_fy st;
        tracking_mode := sel_mode s |} in
   (st',
    mkOutcome []
      (Some (draw_hud st'
               (status_text false (now_status tk) (last_seen st))))
      (encode_ok tk))).
Proof.
  intros Hsel Hle. unfold gen_frames_iter. rewrite Hcapture, Hsel.
  apply Qltb_false in Hle. rewrite Hle. reflexivity.
Qed.

(** No target and the loss timeout has expired: one scan step. *)
Lemma iter_scan :
  sel_box (select st tk frame) = None ->
  LOST_TIMEOUT < now_act tk - last_seen st ->
  gen_frames_iter tilt_direction math_sin st tk =
  (let s := select st tk frame in
   let sc := scan_step math_sin (pan st) (scan_dir st) in
   let st' :=
     {| pan := fst (fst (fst sc)); tilt := snd (fst (fst sc));
        scan_dir := snd (fst sc);
        last_seen := last_seen st;
        last_face_time := sel_face_time s;
        last_face_box := sel_face_box s;
        last_conf := last_conf st;
        last_fx := last_fx st; last_fy := last_fy st;
        tracking_mode := sel_mode s |} in
   (st',
    mkOutcome (snd sc)
      (Some (draw_hud st'
               (status_text false (now_status tk) (last_seen st))))
      (encode_ok tk))).
Proof.
  intros Hsel Hlt. unfold gen_frames_iter. rewrite Hcapture, Hsel.
  apply Qltb_true in Hlt. rewrite Hlt.
  destruct (scan_step math_sin (pan st) (scan_dir st)) as [[[p' t'] d'] ev].
  reflexivity.
Qed.

End Branches.

(** Every servo write of an iteration carries a duty cycle inside the
    safe range, in the three branches alike. *)
Lemma iter_events_duty_safe (tilt_direction : Z) (math_sin : Q -> Q)
      (st : State) (tk : Tick) :
  Forall duty_is_safe
    (events (snd (gen_frames_iter tilt_direction math_sin st tk))).
Proof.
  unfold gen_frames_iter.
  destruct (capture tk) as [frame|]; [|repeat constructor].
  destruct (sel_box (select st tk frame)) as [b|].
  - destruct (center b) as [fx fy]. unfold track_pan, track_tilt.
    destruct (Z.abs (fx - CX) >? CENTER_TOL_X)%Z;
      destruct (Z.abs (fy - CY) >? CENTER_TOL_Y)%Z; cbn [snd events app];
      repeat (constructor; try apply duty_bounds).
  - destruct (Qltb LOST_TIMEOUT (now_act tk - last_seen st));
      [|constructor].
    unfold scan_step.
    destruct (Qltb PAN_MAX (pan st + inject_Z (SCAN_STEP * scan_dir st))
              || Qltb (pan st + inject_Z (SCAN_STEP * scan_dir st)) PAN_MIN);
      cbn [snd events]; apply Forall_app; split;
      try apply set_angle_duty_safe;
      apply Forall_app; split;
      try apply set_angle_duty_safe; repeat constructor.
Qed.

(** ** Status text at the loss timeout *)

Lemma status_text_hold_iff (now seen : Q) :
  status_text false now seen = "Target lost (hold)"
  <-> now - seen < LOST_TIMEOUT.
Proof.
  unfold status_text. case_Qltb; split; intros H;
    try reflexivity; try assumption; try discriminate; lra.
Qed.

(** C10.  In a processed frame with no target, if the elapsed time read
    by the scan test is not above [LOST_TIMEOUT] and the elapsed time
    read by the status test is not below it (in particular when both
    equal [LOST_TIMEOUT]), then no scan step is taken: pan, tilt and
    scan direction are unchanged and nothing is sent to the servos, yet
    the status text drawn on the frame is "Scanning". *)
Theorem status_scanning_without_scan_step :
  forall (tilt_direction : Z) (math_sin : Q -> Q)
         (st : State) (tk : Tick) (frame : Frame),
    capture tk = Some frame ->
    sel_box (select st tk frame) = None ->
    now_act tk - last_seen st <= LOST_TIMEOUT ->
    LOST_TIMEOUT <= now_status tk - last_seen st ->
    pan (fst (gen_frames_iter tilt_direction math_sin st tk)) = pan st /\
    tilt (fst (gen_frames_iter tilt_direction math_sin st tk)) = tilt st /\
    scan_dir (fst (gen_frames_iter tilt_direction math_sin st tk))
      = scan_dir st /\
    events (snd (gen_frames_iter tilt_direction math_sin st tk)) = [] /\
    option_map hud_status
      (hud (snd (gen_frames_iter tilt_direction math_sin st tk)))
      = Some "Scanning".
Proof.
  intros td ms st tk frame Hcap Hsel Hact Hstat.
  rewrite (iter_idle td ms st tk frame Hcap Hsel Hact). simpl.
  repeat split; try reflexivity.
  unfold status_text. apply Qltb_false in Hstat. rewrite Hstat. reflexivity.
Qed.

Lemma status_scanning_without_scan_step_witness :
  now_act (tick_at 2.0 [] []) - last_seen initial_state == LOST_TIMEOUT /\
  now_status (tick_at 2.0 [] []) - last_seen initial_state == LOST_TIMEOUT /\
  pan (fst (gen_frames_iter TILT_DIR sin_zero initial_state
              (tick_at 2.0 [] []))) = pan initial_state /\
  events (snd (gen_frames_iter TILT_DIR sin_zero initial_state
                 (tick_at 2.0 [] []))) = [] /\
  option_map hud_status
    (hud (snd (gen_frames_iter TILT_DIR sin_zero initial_state
                 (tick_at 2.0 [] []))))
  = Some "Scanning".
Proof.
  split; [reflexivity|]. split; [reflexivity|].
  destruct (status_scanning_without_scan_step TILT_DIR sin_zero
              initial_state (tick_at 2.0 [] []) (mkFrame [] []))
    as (Hp & _ & _ & Hev & Hst).
  - reflexivity.
  - reflexivity.
  - vm_compute. discriminate.
  - vm_compute. discriminate.
  - split; [exact Hp|]. split; [exact Hev | exact Hst].
Defined.

(** ** Scan bounce *)

(** Against C3 as stated: a scan step that starts on [PAN_MAX] heading
    up flips the direction and ends on [PAN_MAX] again, not one step
    below it. *)
Lemma scan_bounce_lands_below_counterexample :
  pan (scanning_at PAN_MAX 1) = PAN_MAX /\
  scan_dir (scanning_at PAN_MAX 1) = 1%Z /\
  sel_box (select (scanning_at PAN_MAX 1) (tick_at 10 [] []) (mkFrame [] []))
    = None /\
  LOST_TIMEOUT
  < now_act (tick_at 10 [] []) - last_seen (scanning_at PAN_MAX 1) /\
  scan_dir (fst (gen_frames_iter TILT_DIR sin_zero (scanning_at PAN_MAX 1)
                   (tick_at 10 [] []))) = (-1)%Z /\
  pan (fst (gen_frames_iter TILT_DIR sin_zero (scanning_at PAN_MAX 1)
              (tick_at 10 [] []))) = 160 /\
  ~ pan (fst (gen_frames_iter TILT_DIR sin_zero (scanning_at PAN_MAX 1)
                (tick_at 10 [] [])))
    == PAN_MAX - inject_Z SCAN_STEP.
Proof.
  repeat (split; [reflexivity|]).
  vm_compute. discriminate.
Qed.

(** C3 (amended).  In scanning mode, a scan step that starts at
    [pan = PAN_MAX] with [scan_dir = +1] flips [scan_dir] to -1 and
    leaves pan equal to [PAN_MAX]: the step back from the overshoot
    undoes it. *)
Theorem scan_bounce_at_pan_max :
  forall (tilt_direction : Z) (math_sin : Q -> Q)
         (st : State) (tk : Tick) (frame : Frame),
    capture tk = Some frame ->
    sel_box (select st tk frame) = None ->
    LOST_TIMEOUT < now_act tk - last_seen st ->
    pan st == PAN_MAX ->
    scan_dir st = 1%Z ->
    scan_dir (fst (gen_frames_iter tilt_direction math_sin st tk)) = (-1)%Z /\
    pan (fst (gen_frames_iter tilt_direction math_sin st tk)) == PAN_MAX.
Proof.
  intros td ms st tk frame Hcap Hsel Hlost Hpan Hdir.
  rewrite (iter_scan td ms st tk frame Hcap Hsel Hlost).
  cbv beta zeta. cbn [fst snd pan scan_dir].
  unfold scan_step. rewrite Hdir.
  assert (Hover : Qltb PAN_MAX (pan st + inject_Z (SCAN_STEP * 1)) = true).
  { apply Qltb_true. change (inject_Z (SCAN_STEP * 1)) with (1 # 1). lra. }
  rewrite Hover. cbv beta iota zeta. cbn [fst snd orb].
  split; [reflexivity|].
  rewrite scan_step_back. exact Hpan.
Qed.

Lemma scan_bounce_at_pan_max_witness :
  pan (scanning_at PAN_MAX 1) == PAN_MAX /\
  LOST_TIMEOUT
  < now_act (tick_at 10 [] []) - last_seen (scanning_at PAN_MAX 1) /\
  scan_dir (fst (gen_frames_iter TILT_DIR sin_zero (scanning_at PAN_MAX 1)
                   (tick_at 10 [] []))) = (-1)%Z /\
  pan (fst (gen_frames_iter TILT_DIR sin_zero (scanning_at PAN_MAX 1)
              (tick_at 10 [] []))) == PAN_MAX.
Proof.
  split; [reflexivity|]. split; [reflexivity|].
  apply (scan_bounce_at_pan_max TILT_DIR sin_zero (scanning_at PAN_MAX 1)
           (tick_at 10 [] []) (mkFrame [] [])); reflexivity.
Defined.

(** ** Dead zone *)

Lemma track_pan_dead_zone (p : Q) (fx : Z) :
  (Z.abs (fx - CX) <= CENTER_TOL_X)%Z -> track_pan p fx = (p, []).
Proof.
  intros Htol. unfold track_pan.
  destruct (Z.gtb_spec (Z.abs (fx - CX)) CENTER_TOL_X); [lia | reflexivity].
Qed.

Lemma track_tilt_dead_zone (tilt_direction : Z) (t : Q) (fy : Z) :
  (Z.abs (fy - CY) <= CENTER_TOL_Y)%Z ->
  track_tilt tilt_direction t fy = (t, []).
Proof.
  intros Htol. unfold track_tilt.
  destruct (Z.gtb_spec (Z.abs (fy - CY)) CENTER_TOL_Y); [lia | reflexivity].
Qed.

(** C6.  In a frame with a target, if the horizontal offset of the
    target from the image center is at most [CENTER_TOL_X] in absolute
    value, the frame leaves pan unchanged; if the vertical offset is at
    most [CENTER_TOL_Y], it leaves tilt unchanged. *)
Theorem dead_zone_leaves_axis_unchanged :
  forall (tilt_direction : Z) (math_sin : Q -> Q)
         (st : State) (tk : Tick) (frame : Frame) (b : Box),
    capture tk = Some frame ->
    sel_box (select st tk frame) = Some b ->
    ((Z.abs (fst (center b) - CX) <= CENTER_TOL_X)%Z ->
     pan (fst (gen_frames_iter tilt_direction math_sin st tk)) = pan st) /\
    ((Z.abs (snd (center b) - CY) <= CENTER_TOL_Y)%Z ->
     tilt (fst (gen_frames_iter tilt_direction math_sin st tk)) = tilt st).
Proof.
  intros td ms st tk frame b Hcap Hsel.
  rewrite (iter_track td ms st tk frame Hcap b Hsel).
  cbv beta zeta. cbn [fst pan tilt].
  split; intros Htol.
  - rewrite track_pan_dead_zone by exact Htol. reflexivity.
  - rewrite track_tilt_dead_zone by exact Htol. reflexivity.
Qed.

Lemma dead_zone_leaves_axis_unchanged_witness :
  (Z.abs (snd (center (to_box face_row_09)) - CY) <= CENTER_TOL_Y)%Z /\
  tilt (fst (gen_frames_iter TILT_DIR sin_zero initial_state
               (tick_at 100 [face_row_09] []))) = tilt initial_state.
Proof.
  split; [vm_compute; discriminate|].
  apply (dead_zone_leaves_axis_unchanged TILT_DIR sin_zero initial_state
           (tick_at 100 [face_row_09] []) (mkFrame [face_row_09] [])
           (to_box face_row_09)).
  - reflexivity.
  - reflexivity.
  - vm_compute. discriminate.
Defined.

(** ** A face at (160, 120) *)

(** Against C5 as stated: with the tilt direction set to +1 and a face
    of center (160, 120) accepted in the frame, tilt does not increase:
    the vertical offset from the image center (150, 112) is 8, which
    does not exceed [CENTER_TOL_Y]. *)
Lemma face_160_120_tilt_increases_counterexample :
  center (to_box face_row_09) = (160, 120)%Z /\
  (CX, CY) = (150, 112)%Z /\
  sel_mode (select initial_state (tick_at 100 [face_row_09] [])
              (mkFrame [face_row_09] [])) = "face" /\
  sel_box (select initial_state (tick_at 100 [face_row_09] [])
             (mkFrame [face_row_09] [])) = Some (to_box face_row_09) /\
  tilt (fst (gen_frames_iter 1 sin_zero initial_state
               (tick_at 100 [face_row_09] []))) = tilt initial_state /\
  ~ (pan (fst (gen_frames_iter 1 sin_zero initial_state
                 (tick_at 100 [face_row_09] []))) < pan initial_state /\
     tilt initial_state
     < tilt (fst (gen_frames_iter 1 sin_zero initial_state
                    (tick_at 100 [face_row_09] [])))).
Proof.
  repeat (split; [reflexivity|]).
  intros [_ H]. vm_compute in H. discriminate H.
Qed.

(** C5 (amended).  In a frame whose target has center (160, 120), the
    image center being (150, 112): tilt is unchanged, whatever the tilt
    direction, since the vertical offset 8 does not exceed
    [CENTER_TOL_Y]; pan strictly decreases whenever it is above
    [PAN_MIN], and by exactly 0.5 when that stays within the pan
    limits. *)
Theorem face_160_120_moves_pan_only :
  forall (tilt_direction : Z) (math_sin : Q -> Q)
         (st : State) (tk : Tick) (frame : Frame) (b : Box),
    capture tk = Some frame ->
    sel_box (select st tk frame) = Some b ->
    center b = (160, 120)%Z ->
    (CX, CY) = (150, 112)%Z /\
    tilt (fst (gen_frames_iter tilt_direction math_sin st tk)) = tilt st /\
    (PAN_MIN < pan st ->
     pan (fst (gen_frames_iter tilt_direction math_sin st tk)) < pan st) /\
    (PAN_MIN + 0.5 <= pan st <= PAN_MAX + 0.5 ->
     pan (fst (gen_frames_iter tilt_direction math_sin st tk))
     == pan st - 0.5).
Proof.
  intros td ms st tk frame b Hcap Hsel Hcenter.
  rewrite (iter_track td ms st tk frame Hcap b Hsel).
  cbv beta zeta. cbn [fst pan tilt].
  rewrite Hcenter. cbn [fst snd].
  split; [reflexivity|].
  split.
  { rewrite track_tilt_dead_zone; [reflexivity | vm_compute; discriminate]. }
  unfold track_pan.
  change (Z.abs (160 - CX) >? CENTER_TOL_X)%Z with true.
  cbv beta iota zeta. cbn [fst].
  change (inject_Z (160 - CX)) with (10 # 1).
  unfold GAIN_PAN, PAN_MIN, PAN_MAX.
  split.
  - intros Hpan. apply py_clamp_lt; lra.
  - intros [Hlo Hhi]. case_clamp 20 160 (pan st - (10 # 1) * 0.05); lra.
Qed.

Lemma face_160_120_moves_pan_only_witness :
  center (to_box face_row_09) = (160, 120)%Z /\
  PAN_MIN < pan initial_state /\
  tilt (fst (gen_frames_iter 1 sin_zero initial_state
               (tick_at 100 [face_row_09] []))) = tilt initial_state /\
  pan (fst (gen_frames_iter 1 sin_zero initial_state
              (tick_at 100 [face_row_09] []))) < pan initial_state.
Proof.
  split; [reflexivity|]. split; [reflexivity|].
  destruct (face_160_120_moves_pan_only 1 sin_zero initial_state
              (tick_at 100 [face_row_09] []) (mkFrame [face_row_09] [])
              (to_box face_row_09))
    as (_ & Ht & Hp & _).
  - reflexivity.
  - reflexivity.
  - reflexivity.
  - split; [exact Ht|]. apply Hp. reflexivity.
Defined.

(** ** The two detector loops *)

(** The face loop either leaves its accumulators as they were or ends
    on an accepted row, with that row's box and confidence. *)
Lemma face_loop_result (rows : list Row) :
  forall (bf bf' : option Box) (c c' : Q),
    face_loop rows bf c = (bf', c') ->
    (bf' = bf /\ c' = c) \/
    (exists r, In r rows /\ face_candidate r /\
               bf' = Some (to_box r) /\ c' = r_conf r).
Proof.
  induction rows as [|r rest IH]; intros bf bf' c c' Hloop; simpl in Hloop.
  - left. inversion Hloop. split; reflexivity.
  - destruct (Qltb (r_conf r) FACE_CONF) eqn:Hconf.
    { destruct (IH _ _ _ _ Hloop) as [Hsame | (r' & Hin & Hrest)];
        [left; exact Hsame
        | right; exists r'; split; [right; exact Hin | exact Hrest]]. }
    destruct (area (to_box r) <? MIN_FACE_PIX)%Z eqn:Harea.
    { destruct (IH _ _ _ _ Hloop) as [Hsame | (r' & Hin & Hrest)];
        [left; exact Hsame
        | right; exists r'; split; [right; exact Hin | exact Hrest]]. }
    destruct (Qltb c (r_conf r)) eqn:Hbest.
    + right.
      destruct (IH _ _ _ _ Hloop) as [[Hb Hc] | (r' & Hin & Hrest)].
      * exists r. split; [left; reflexivity|].
        split; [|split; assumption].
        split; [apply Qltb_false; exact Hconf | apply Z.ltb_ge; exact Harea].
      * exists r'. split; [right; exact Hin | exact Hrest].
    + destruct (IH _ _ _ _ Hloop) as [Hsame | (r' & Hin & Hrest)];
        [left; exact Hsame
        | right; exists r'; split; [right; exact Hin | exact Hrest]].
Qed.

(** When the face loop started from [None] accepts nothing, its
    confidence is still the initial one. *)
Lemma face_loop_none (rows : list Row) (c c' : Q) (bf' : option Box) :
  face_loop rows None c = (bf', c') -> bf' = None -> c' = c.
Proof.
  intros Hloop Hnone.
  destruct (face_loop_result rows _ _ _ _ Hloop)
    as [[_ Hc] | (r & _ & _ & Hb & _)]; [exact Hc | congruence].
Qed.

(** The person loop: its confidence never decreases, bounds the
    confidence of every candidate row, and its result is either the
    accumulators it started from or a candidate row. *)
Lemma body_loop_result (rows : list Row) :
  forall (bb bb' : option Box) (c c' : Q),
    body_loop rows bb c = (bb', c') ->
    c <= c' /\
    (forall r, In r rows -> person_candidate r -> r_conf r <= c') /\
    ((bb' = bb /\ c' = c) \/
     (exists r, In r rows /\ person_candidate r /\
                bb' = Some (to_box r) /\ c' = r_conf r)).
Proof.
  induction rows as [|r rest IH]; intros bb bb' c c' Hloop; simpl in Hloop.
  - inversion Hloop. split; [lra|]. split; [intros r []|].
    left. split; reflexivity.
  - destruct (Qltb (r_conf r) PERSON_CONF
              || negb (Qtrunc (r_cls r) =? PERSON_CLASS)%Z) eqn:Hskip.
    { destruct (IH _ _ _ _ Hloop) as (Hmono & Hbound & Hres).
      split; [exact Hmono|]. split.
      - intros r' [<- | Hin] Hcand; [|apply Hbound; assumption].
        destruct Hcand as (Hcls & Hconf & _).
        apply orb_true_iff in Hskip. destruct Hskip as [Hlow | Hother].
        + apply Qltb_true in Hlow. lra.
        + apply negb_true_iff, Z.eqb_neq in Hother. contradiction.
      - destruct Hres as [Hsame | (r' & Hin & Hrest)];
          [left; exact Hsame
          | right; exists r'; split; [right; exact Hin | exact Hrest]]. }
    apply orb_false_iff in Hskip. destruct Hskip as [Hconf Hcls].
    apply Qltb_false in Hconf.
    apply negb_false_iff, Z.eqb_eq in Hcls.
    destruct (Qltb (inject_Z (area (to_box r)))
                (MIN_BODY_FRAC * inject_Z CAM_W * inject_Z CAM_H)) eqn:Hsmall.
    { destruct (IH _ _ _ _ Hloop) as (Hmono & Hbound & Hres).
      split; [exact Hmono|]. split.
      - intros r' [<- | Hin] Hcand; [|apply Hbound; assumption].
        destruct Hcand as (_ & _ & Harea).
        apply Qltb_true in Hsmall. lra.
      - destruct Hres as [Hsame | (r' & Hin & Hrest)];
          [left; exact Hsame
          | right; exists r'; split; [right; exact Hin | exact Hrest]]. }
    apply Qltb_false in Hsmall.
    assert (Hcand : person_candidate r) by (repeat split; assumption).
    destruct (Qltb c (r_conf r)) eqn:Hbest.
    + apply Qltb_true in Hbest.
      destruct (IH _ _ _ _ Hloop) as (Hmono & Hbound & Hres).
      split; [lra|]. split.
      * intros r' [<- | Hin] Hcand'; [exact Hmono | apply Hbound; assumption].
      * right. destruct Hres as [[Hb Hc] | (r' & Hin & Hrest)].
        -- exists r. split; [left; reflexivity|].
           split; [exact Hcand | split; assumption].
        -- exists r'. split; [right; exact Hin | exact Hrest].
    + apply Qltb_false in Hbest.
      destruct (IH _ _ _ _ Hloop) as (Hmono & Hbound & Hres).
      split; [exact Hmono|]. split.
      * intros r' [<- | Hin] Hcand'; [lra | apply Hbound; assumption].
      * destruct Hres as [Hsame | (r' & Hin & Hrest)];
          [left; exact Hsame
          | right; exists r'; split; [right; exact Hin | exact Hrest]].
Qed.

(** ** The detector cascade *)

(** Step 1 of [select]: the remembered face and the hold test. *)
Lemma select_face_stage (st : State) (tk : Tick) (frame : Frame) :
  sel_fconf (select st tk frame) = snd (face_loop (det_f frame) None 0.0) /\
  sel_face_box (select st tk frame)
  = match fst (face_loop (det_f frame) None 0.0) with
    | Some b => Some b
    | None => last_face_box st
    end /\
  sel_face_time (select st tk frame)
  = match fst (face_loop (det_f frame) None 0.0) with
    | Some _ => now_face tk
    | None => last_face_time st
    end /\
  sel_use_face (select st tk frame)
  = Qltb (now_hold tk - sel_face_time (select st tk frame)) FACE_HOLD_SEC
    && is_not_None (sel_face_box (select st tk frame)).
Proof.
  unfold select.
  destruct (face_loop (det_f frame) None 0.0) as [bf c].
  destruct bf as [b|]; cbn [fst snd].
  - destruct (Qltb (now_hold tk - now_face tk) FACE_HOLD_SEC) eqn:Hq; cbn;
      try (destruct (body_loop (det_p frame) None 0.0) as [bb bc]; cbn);
      rewrite ?Hq; repeat split; reflexivity.
  - destruct (Qltb (now_hold tk - last_face_time st) FACE_HOLD_SEC) eqn:Hq;
      destruct (last_face_box st) as [b|]; cbn;
      try (destruct (body_loop (det_p frame) None 0.0) as [bb bc]; cbn);
      rewrite ?Hq; repeat split; reflexivity.
Qed.

(** While the hold window is active the cascade stops at the face. *)
Lemma select_face_mode (st : State) (tk : Tick) (frame : Frame) :
  sel_use_face (select st tk frame) = true ->
  sel_box (select st tk frame) = sel_face_box (select st tk frame) /\
  sel_conf (select st tk frame) = sel_fconf (select st tk frame) /\
  sel_mode (select st tk frame) = "face".
Proof.
  unfold select.
  destruct (face_loop (det_f frame) None 0.0) as [bf c].
  destruct bf as [b|].
  - destruct (Qltb (now_hold tk - now_face tk) FACE_HOLD_SEC); cbn.
    + intros _. repeat split; reflexivity.
    + destruct (body_loop (det_p frame) None 0.0) as [bb bc]. cbn.
      discriminate.
  - destruct (Qltb (now_hold tk - last_face_time st) FACE_HOLD_SEC);
      destruct (last_face_box st) as [b|]; cbn;
      try (destruct (body_loop (det_p frame) None 0.0) as [bb bc]; cbn);
      try discriminate; intros _; repeat split; reflexivity.
Qed.

(** Otherwise the cascade returns what the person loop found. *)
Lemma select_body_stage (st : State) (tk : Tick) (frame : Frame) :
  sel_use_face (select st tk frame) = false ->
  sel_box (select st tk frame) = fst (body_loop (det_p frame) None 0.0) /\
  sel_conf (select st tk frame) = snd (body_loop (det_p frame) None 0.0) /\
  sel_mode (select st tk frame)
  = (if is_not_None (sel_box (select st tk frame)) then "body" else "none").
Proof.
  unfold select.
  destruct (face_loop (det_f frame) None 0.0) as [bf c].
  destruct bf as [b|].
  - destruct (Qltb (now_hold tk - now_face tk) FACE_HOLD_SEC); cbn.
    + discriminate.
    + destruct (body_loop (det_p frame) None 0.0) as [bb bc]. cbn.
      intros _. repeat split; reflexivity.
  - destruct (Qltb (now_hold tk - last_face_time st) FACE_HOLD_SEC);
      destruct (last_face_box st) as [b|]; cbn;
      try (destruct (body_loop (det_p frame) None 0.0) as [bb bc]; cbn);
      try discriminate; intros _; repeat split; reflexivity.
Qed.

(** What an iteration on a captured frame keeps from the cascade. *)
Lemma iter_cascade_fields (tilt_direction : Z) (math_sin : Q -> Q)
      (st : State) (tk : Tick) (frame : Frame) :
  capture tk = Some frame ->
  last_face_box (fst (gen_frames_iter tilt_direction math_sin st tk))
  = sel_face_box (select st tk frame) /\
  last_face_time (fst (gen_frames_iter tilt_direction math_sin st tk))
  = sel_face_time (select st tk frame) /\
  tracking_mode (fst (gen_frames_iter tilt_direction math_sin st tk))
  = sel_mode (select st tk frame).
Proof.
  intros Hcap.
  destruct (sel_box (select st tk frame)) as [b|] eqn:Hsel.
  - rewrite (iter_track _ _ _ _ _ Hcap b Hsel). repeat split; reflexivity.
  - destruct (Qlt_le_dec LOST_TIMEOUT (now_act tk - last_seen st)) as [Hlt|Hle].
    + rewrite (iter_scan _ _ _ _ _ Hcap Hsel Hlt). repeat split; reflexivity.
    + rewrite (iter_idle _ _ _ _ _ Hcap Hsel Hle). repeat split; reflexivity.
Qed.

(** ** Body stage *)

(** C7.  When the face-hold window is inactive, a box selected by the
    cascade is the box of a person-detector row that has the person
    class, a confidence of at least [PERSON_CONF] and an area of at
    least [MIN_BODY_FRAC] of the frame, no row passing these filters
    has a higher confidence, and the mode is "body"; a box is selected
    as soon as one row passes the filters; without a box the mode is
    "none".  In particular, from the initial state, a frame with a face
    of confidence 0.3 and a qualifying person of confidence 0.9 ends
    in mode "body". *)
Theorem body_stage_selects_best_person :
  forall (tilt_direction : Z) (math_sin : Q -> Q)
         (st : State) (tk : Tick) (frame : Frame),
    sel_use_face (select st tk frame) = false ->
    (forall b, sel_box (select st tk frame) = Some b ->
       sel_mode (select st tk frame) = "body" /\
       exists r, In r (det_p frame) /\ person_candidate r /\
                 to_box r = b /\
                 r_conf r = sel_conf (select st tk frame) /\
                 forall r', In r' (det_p frame) -> person_candidate r' ->
                            r_conf r' <= r_conf r) /\
    ((exists r, In r (det_p frame) /\ person_candidate r) ->
     sel_box (select st tk frame) <> None) /\
    (sel_box (select st tk frame) = None ->
     sel_mode (select st tk frame) = "none") /\
    (capture tk = Some frame ->
     tracking_mode (fst (gen_frames_iter tilt_direction math_sin st tk))
     = sel_mode (select st tk frame)) /\
    ~ face_candidate face_row_03 /\
    person_candidate body_row_09 /\
    tracking_mode
      (fst (gen_frames_iter tilt_direction math_sin initial_state
              (tick_at 100 [face_row_03] [body_row_09])))
    = "body".
Proof.
  intros td ms st tk frame Hhold.
  destruct (select_body_stage st tk frame Hhold) as (Hbox & Hconf & Hmode).
  destruct (body_loop (det_p frame) None 0.0) as [bb bc] eqn:Hloop.
  cbn [fst snd] in Hbox, Hconf.
  destruct (body_loop_result _ _ _ _ _ Hloop) as (_ & Hbound & Hres).
  split; [|split; [|split; [|split; [|split; [|split]]]]].
  - intros b Hb. rewrite Hmode, Hb. split; [reflexivity|].
    rewrite Hbox in Hb.
    destruct Hres as [[Hnone _] | (r & Hin & Hcand & Hbb & Hbc)];
      [congruence|].
    exists r. split; [exact Hin|]. split; [exact Hcand|].
    split; [congruence|]. split; [congruence|].
    intros r' Hin' Hcand'. rewrite <- Hbc. apply Hbound; assumption.
  - intros (r & Hin & Hcand) Hnone.
    rewrite Hbox in Hnone.
    destruct Hres as [[_ Hzero] | (r' & _ & _ & Hbb & _)]; [|congruence].
    pose proof (Hbound r Hin Hcand) as Hle.
    destruct Hcand as (_ & Hthr & _).
    rewrite Hzero in Hle. unfold PERSON_CONF in Hthr. lra.
  - intros Hnone. rewrite Hmode, Hnone. reflexivity.
  - intros Hcap. apply (iter_cascade_fields td ms st tk frame Hcap).
  - intros [Hthr _]. vm_compute in Hthr. apply Hthr. reflexivity.
  - repeat split; vm_compute; discriminate.
  - rewrite (proj2 (proj2 (iter_cascade_fields td ms initial_state
                             (tick_at 100 [face_row_03] [body_row_09])
                             (mkFrame [face_row_03] [body_row_09])
                             eq_refl))).
    reflexivity.
Qed.

Lemma body_stage_selects_best_person_witness :
  sel_use_face (select initial_state
                  (tick_at 100 [face_row_03] [body_row_09])
                  (mkFrame [face_row_03] [body_row_09])) = false /\
  sel_box (select initial_state
             (tick_at 100 [face_row_03] [body_row_09])
             (mkFrame [face_row_03] [body_row_09]))
  = Some (to_box body_row_09) /\
  sel_mode (select initial_state
              (tick_at 100 [face_row_03] [body_row_09])
              (mkFrame [face_row_03] [body_row_09])) = "body".
Proof.
  split; [reflexivity|]. split; [reflexivity|].
  apply (proj1 (body_stage_selects_best_person TILT_DIR sin_zero
                  initial_state (tick_at 100 [face_row_03] [body_row_09])
                  (mkFrame [face_row_03] [body_row_09]) eq_refl)
           (to_box body_row_09)).
  reflexivity.
Defined.

(** ** Confidence reported during the face hold *)

(** C4.  The code departs from the claim at this input.  A face of
    confidence 0.9 is accepted at time 100 and its confidence is
    stored.  At time 100.0625 the face detector returns nothing and the
    hold window is active: the frame is reported in mode "face" with
    status "Tracking" and the box remembered from time 100, but the
    confidence stored and drawn for it is 0.0, below [FACE_CONF], not
    the 0.9 of the remembered detection. *)
Lemma held_face_reports_zero_confidence :
  last_face_box
    (state_after TILT_DIR sin_zero initial_state
       [tick_at 100 [face_row_09] []])
  = Some (to_box face_row_09) /\
  last_conf
    (state_after TILT_DIR sin_zero initial_state
       [tick_at 100 [face_row_09] []])
  = r_conf face_row_09 /\
  fst (face_loop [] None 0.0) = None /\
  sel_use_face
    (select (state_after TILT_DIR sin_zero initial_state
               [tick_at 100 [face_row_09] []])
       (tick_at 100.0625 [] []) (mkFrame [] []))
  = true /\
  sel_box
    (select (state_after TILT_DIR sin_zero initial_state
               [tick_at 100 [face_row_09] []])
       (tick_at 100.0625 [] []) (mkFrame [] []))
  = Some (to_box face_row_09) /\
  hud (snd (gen_frames_iter TILT_DIR sin_zero
              (state_after TILT_DIR sin_zero initial_state
                 [tick_at 100 [face_row_09] []])
              (tick_at 100.0625 [] [])))
  = Some (mkHud 0.0 (160, 120)%Z "face" "Tracking") /\
  last_conf
    (state_after TILT_DIR sin_zero initial_state
       [tick_at 100 [face_row_09] []; tick_at 100.0625 [] []])
  = 0.0 /\
  last_conf
    (state_after TILT_DIR sin_zero initial_state
       [tick_at 100 [face_row_09] []; tick_at 100.0625 [] []])
  < FACE_CONF /\
  ~ last_conf
      (state_after TILT_DIR sin_zero initial_state
         [tick_at 100 [face_row_09] []; tick_at 100.0625 [] []])
    == r_conf face_row_09.
Proof.
  repeat (split; [reflexivity|]).
  vm_compute. discriminate.
Qed.

(** Where the 0.0 comes from.  In a frame in which the hold is active,
    the confidence stored with the selected box is [best_fconf] of the
    current frame, which the face loop starts at 0.0: it is the
    confidence of the selected box when that box was accepted in this
    frame, and stays 0.0 when the box is a remembered one. *)
Lemma hold_confidence_is_current_best_fconf :
  forall (tilt_direction : Z) (math_sin : Q -> Q)
         (st : State) (tk : Tick) (frame : Frame),
    capture tk = Some frame ->
    sel_use_face (select st tk frame) = true ->
    last_conf (fst (gen_frames_iter tilt_direction math_sin st tk))
    = snd (face_loop (det_f frame) None 0.0) /\
    option_map hud_conf
      (hud (snd (gen_frames_iter tilt_direction math_sin st tk)))
    = Some (snd (face_loop (det_f frame) None 0.0)) /\
    (fst (face_loop (det_f frame) None 0.0) = None ->
     last_conf (fst (gen_frames_iter tilt_direction math_sin st tk)) = 0.0) /\
    (forall b, fst (face_loop (det_f frame) None 0.0) = Some b ->
       last_face_box (fst (gen_frames_iter tilt_direction math_sin st tk))
       = Some b /\
       exists r, In r (det_f frame) /\ face_candidate r /\
                 to_box r = b /\
                 r_conf r
                 = last_conf
                     (fst (gen_frames_iter tilt_direction math_sin st tk))).
Proof.
  intros td ms st tk frame Hcap Huse.
  destruct (select_face_mode st tk frame Huse) as (Hbox & Hconf & _).
  destruct (select_face_stage st tk frame) as (Hfconf & Hfbox & _ & Huse').
  rewrite Huse in Huse'. symmetry in Huse'.
  apply andb_true_iff in Huse'. destruct Huse' as [_ Hsome].
  destruct (sel_face_box (select st tk frame)) as [fb|] eqn:Hfb;
    [clear Hsome | discriminate Hsome].
  rewrite (iter_track td ms st tk frame Hcap fb Hbox).
  cbv beta zeta. cbn [fst snd last_conf last_face_box hud option_map
                      draw_hud hud_conf].
  rewrite Hconf, Hfconf.
  destruct (face_loop (det_f frame) None 0.0) as [bf c] eqn:Hloop.
  cbn [fst snd] in *.
  split; [reflexivity|]. split; [reflexivity|]. split.
  - intros Hnone. apply (face_loop_none _ _ _ _ Hloop Hnone).
  - intros b Hb. subst bf. split; [congruence|].
    destruct (face_loop_result _ _ _ _ _ Hloop)
      as [[Habs _] | (r & Hin & Hcand & Hrb & Hrc)]; [discriminate Habs|].
    exists r. split; [exact Hin|]. split; [exact Hcand|].
    split; congruence.
Qed.

(** ** Face hold *)

Section FaceHold.

Variable tilt_direction : Z.
Variable math_sin : Q -> Q.

Lemma state_after_cons (st : State) (tk : Tick) (rest : list Tick) :
  state_after tilt_direction math_sin st (tk :: rest)
  = state_after tilt_direction math_sin
      (fst (gen_frames_iter tilt_direction math_sin st tk)) rest.
Proof.
  unfold state_after. simpl.
  destruct (gen_frames_iter tilt_direction math_sin st tk) as [st' out].
  cbn [fst].
  destruct (gen_frames tilt_direction math_sin st' rest) as [st'' outs].
  reflexivity.
Qed.

Lemma state_after_snoc (ticks : list Tick) (tk : Tick) :
  forall st,
    state_after tilt_direction math_sin st (ticks ++ [tk])
    = fst (gen_frames_iter tilt_direction math_sin
             (state_after tilt_direction math_sin st ticks) tk).
Proof.
  induction ticks as [|tk0 rest IH]; intros st.
  - simpl app. rewrite state_after_cons. reflexivity.
  - simpl app. rewrite !state_after_cons. apply IH.
Qed.

(** An iteration that accepts no face leaves the remembered face and
    its timestamp alone. *)
Lemma iter_keeps_face_memory (st : State) (tk : Tick) :
  no_accepted_face tk ->
  last_face_box (fst (gen_frames_iter tilt_direction math_sin st tk))
  = last_face_box st /\
  last_face_time (fst (gen_frames_iter tilt_direction math_sin st tk))
  = last_face_time st.
Proof.
  unfold no_accepted_face. intros Hno.
  destruct (capture tk) as [frame|] eqn:Hcap.
  - destruct (iter_cascade_fields tilt_direction math_sin st tk frame Hcap)
      as (Hbox & Htime & _).
    destruct (select_face_stage st tk frame) as (_ & Hfb & Hft & _).
    rewrite Hno in Hfb, Hft. split; congruence.
  - unfold gen_frames_iter. rewrite Hcap. split; reflexivity.
Qed.

Lemma state_after_keeps_face_memory (ticks : list Tick) :
  Forall no_accepted_face ticks ->
  forall st,
    last_face_box (state_after tilt_direction math_sin st ticks)
    = last_face_box st /\
    last_face_time (state_after tilt_direction math_sin st ticks)
    = last_face_time st.
Proof.
  induction 1 as [|tk rest Hno _ IH]; intros st.
  - split; reflexivity.
  - rewrite state_after_cons.
    destruct (IH (fst (gen_frames_iter tilt_direction math_sin st tk)))
      as [Hb Ht].
    destruct (iter_keeps_face_memory st tk Hno) as [Hb' Ht'].
    split; congruence.
Qed.

(** An iteration that accepts a face remembers its box and the time. *)
Lemma iter_records_face (st : State) (tk : Tick) (frame : Frame) (b : Box) :
  capture tk = Some frame ->
  fst (face_loop (det_f frame) None 0.0) = Some b ->
  last_face_box (fst (gen_frames_iter tilt_direction math_sin st tk))
  = Some b /\
  last_face_time (fst (gen_frames_iter tilt_direction math_sin st tk))
  = now_face tk.
Proof.
  intros Hcap Hface.
  destruct (iter_cascade_fields tilt_direction math_sin st tk frame Hcap)
    as (Hbox & Htime & _).
  destruct (select_face_stage st tk frame) as (_ & Hfb & Hft & _).
  rewrite Hface in Hfb, Hft. split; congruence.
Qed.

End FaceHold.

(** Against C2 as stated: a face of center (160, 120) is accepted at
    time 100 and another face, of center (74, 56), at time 100.03125.
    At time 100.0625, less than [FACE_HOLD_SEC] after the first
    acceptance, the face detector returns nothing: the frame is in
    mode "face", but the box it uses is the second one, the most
    recently accepted, not the first. *)
Lemma face_hold_after_newer_face_counterexample :
  fst (face_loop [face_row_09] None 0.0) = Some (to_box face_row_09) /\
  center (to_box face_row_09) = (160, 120)%Z /\
  fst (face_loop [face_row_075] None 0.0) = Some (to_box face_row_075) /\
  center (to_box face_row_075) = (74, 56)%Z /\
  fst (face_loop [] None 0.0) = None /\
  now_hold (tick_at 100.0625 [] []) - now_face (tick_at 100 [face_row_09] [])
  < FACE_HOLD_SEC /\
  sel_mode
    (select (state_after TILT_DIR sin_zero initial_state
               [tick_at 100 [face_row_09] [];
                tick_at 100.03125 [face_row_075] []])
       (tick_at 100.0625 [] []) (mkFrame [] []))
  = "face" /\
  sel_box
    (select (state_after TILT_DIR sin_zero initial_state
               [tick_at 100 [face_row_09] [];
                tick_at 100.03125 [face_row_075] []])
       (tick_at 100.0625 [] []) (mkFrame [] []))
  = Some (to_box face_row_075) /\
  (last_fx
     (state_after TILT_DIR sin_zero initial_state
        [tick_at 100 [face_row_09] [];
         tick_at 100.03125 [face_row_075] [];
         tick_at 100.0625 [] []]),
   last_fy
     (state_after TILT_DIR sin_zero initial_state
        [tick_at 100 [face_row_09] [];
         tick_at 100.03125 [face_row_075] [];
         tick_at 100.0625 [] []]))
  = (74, 56)%Z /\
  sel_box
    (select (state_after TILT_DIR sin_zero initial_state
               [tick_at 100 [face_row_09] [];
                tick_at 100.03125 [face_row_075] []])
       (tick_at 100.0625 [] []) (mkFrame [] []))
  <> Some (to_box face_row_09).
Proof.
  repeat (split; [reflexivity|]).
  vm_compute. discriminate.
Qed.

(** C2 (amended).  Let a face of box [b] be accepted in an iteration, at
    the time [T] read when it is recorded, and let no face be accepted
    in the iterations that follow it.  Then in a processed frame in
    which again no face is accepted and whose hold test reads a time
    [t] with [t - T < FACE_HOLD_SEC], the cascade reports mode "face"
    and selects the same box [b], so the iteration ends with
    [tracking_mode = "face"], with the center of [b] as target position
    and with status "Tracking". *)
Theorem face_hold_keeps_face_target :
  forall (tilt_direction : Z) (math_sin : Q -> Q) (st0 : State)
         (tkT : Tick) (frameT : Frame) (b : Box) (mid : list Tick)
         (tk : Tick) (frame : Frame),
    capture tkT = Some frameT ->
    fst (face_loop (det_f frameT) None 0.0) = Some b ->
    Forall no_accepted_face mid ->
    capture tk = Some frame ->
    fst (face_loop (det_f frame) None 0.0) = None ->
    now_hold tk - now_face tkT < FACE_HOLD_SEC ->
    sel_mode (select (state_after tilt_direction math_sin st0 (tkT :: mid))
                tk frame) = "face" /\
    sel_box (select (state_after tilt_direction math_sin st0 (tkT :: mid))
               tk frame) = Some b /\
    tracking_mode
      (state_after tilt_direction math_sin st0 ((tkT :: mid) ++ [tk]))
    = "face" /\
    (last_fx (state_after tilt_direction math_sin st0 ((tkT :: mid) ++ [tk])),
     last_fy (state_after tilt_direction math_sin st0 ((tkT :: mid) ++ [tk])))
    = center b /\
    option_map hud_mode
      (hud (snd (gen_frames_iter tilt_direction math_sin
                   (state_after tilt_direction math_sin st0 (tkT :: mid))
                   tk)))
    = Some "face" /\
    option_map hud_pos
      (hud (snd (gen_frames_iter tilt_direction math_sin
                   (state_after tilt_direction math_sin st0 (tkT :: mid))
                   tk)))
    = Some (center b) /\
    option_map hud_status
      (hud (snd (gen_frames_iter tilt_direction math_sin
                   (state_after tilt_direction math_sin st0 (tkT :: mid))
                   tk)))
    = Some "Tracking".
Proof.
  intros td ms st0 tkT frameT b mid tk frame
         HcapT HfaceT Hmid Hcap Hnoface Hhold.
  rewrite state_after_snoc.
  remember (state_after td ms st0 (tkT :: mid)) as st1 eqn:Hst1.
  assert (Hmem : last_face_box st1 = Some b /\
                 last_face_time st1 = now_face tkT).
  { subst st1. rewrite state_after_cons.
    destruct (state_after_keeps_face_memory td ms mid Hmid
                (fst (gen_frames_iter td ms st0 tkT))) as [Hb Ht].
    destruct (iter_records_face td ms st0 tkT frameT b HcapT HfaceT)
      as [Hb' Ht'].
    split; congruence. }
  destruct Hmem as [Hmb Hmt].
  destruct (select_face_stage st1 tk frame) as (Hfconf & Hfb & Hft & Huse).
  rewrite Hnoface in Hfb, Hft. rewrite Hmb in Hfb. rewrite Hmt in Hft.
  rewrite Hft, Hfb in Huse. apply Qltb_true in Hhold.
  rewrite Hhold in Huse. cbn in Huse.
  destruct (select_face_mode st1 tk frame Huse) as (Hbox & Hconf & Hmode).
  rewrite Hfb in Hbox.
  rewrite (iter_track td ms st1 tk frame Hcap b Hbox).
  cbv beta zeta. cbn [fst snd tracking_mode last_fx last_fy hud].
  unfold draw_hud.
  cbn [option_map hud_mode hud_pos hud_status
       last_conf last_fx last_fy tracking_mode].
  rewrite Hmode. rewrite <- surjective_pairing.
  repeat split; try reflexivity; assumption.
Qed.

Lemma face_hold_keeps_face_target_witness :
  fst (face_loop [face_row_09] None 0.0) = Some (to_box face_row_09) /\
  Forall no_accepted_face [failed_tick 100.015625; tick_at 100.03125 [] []] /\
  now_hold (tick_at 100.0625 [] []) - now_face (tick_at 100 [face_row_09] [])
  < FACE_HOLD_SEC /\
  tracking_mode
    (state_after TILT_DIR sin_zero initial_state
       ((tick_at 100 [face_row_09] []
         :: [failed_tick 100.015625; tick_at 100.03125 [] []])
        ++ [tick_at 100.0625 [] []]))
  = "face" /\
  (last_fx
     (state_after TILT_DIR sin_zero initial_state
        ((tick_at 100 [face_row_09] []
          :: [failed_tick 100.015625; tick_at 100.03125 [] []])
         ++ [tick_at 100.0625 [] []])),
   last_fy
     (state_after TILT_DIR sin_zero initial_state
        ((tick_at 100 [face_row_09] []
          :: [failed_tick 100.015625; tick_at 100.03125 [] []])
         ++ [tick_at 100.0625 [] []])))
  = (160, 120)%Z.
Proof.
  assert (Hmid : Forall no_accepted_face
                   [failed_tick 100.015625; tick_at 100.03125 [] []]).
  { repeat constructor. }
  split; [reflexivity|]. split; [exact Hmid|]. split; [reflexivity|].
  destruct (face_hold_keeps_face_target TILT_DIR sin_zero initial_state
              (tick_at 100 [face_row_09] []) (mkFrame [face_row_09] [])
              (to_box face_row_09)
              [failed_tick 100.015625; tick_at 100.03125 [] []]
              (tick_at 100.0625 [] []) (mkFrame [] []))
    as (_ & _ & Hmode & Hpos & _).
  - reflexivity.
  - reflexivity.
  - exact Hmid.
  - reflexivity.
  - reflexivity.
  - reflexivity.
  - split; [exact Hmode | exact Hpos].
Defined.

(** * Further properties of the loop *)

(** ** The face stage picks the first best candidate *)

(** The face loop, from any accumulators: either no row beats the
    starting confidence and the accumulators come back unchanged, or
    the result is the first accepted row of maximal confidence. *)
Lemma face_loop_first_best (rows : list Row) :
  forall (bf bf' : option Box) (c c' : Q),
    face_loop rows bf c = (bf', c') ->
    (bf' = bf /\ c' = c /\
     forall r, In r rows -> face_candidate r -> r_conf r <= c) \/
    (exists pre r post,
        rows = pre ++ r :: post /\ face_candidate r /\
        bf' = Some (to_box r) /\ c' = r_conf r /\ c < r_conf r /\
        (forall r', In r' pre -> face_candidate r' -> r_conf r' < r_conf r) /\
        (forall r', In r' post -> face_candidate r' ->
                    r_conf r' <= r_conf r)).
Proof.
  induction rows as [|r rest IH]; intros bf bf' c c' Hloop; simpl in Hloop.
  - left. inversion Hloop. split; [reflexivity|]. split; [reflexivity|].
    intros r [].
  - assert (Hskip : ~ face_candidate r ->
              face_loop rest bf c = (bf', c') ->
              (bf' = bf /\ c' = c /\
               forall r0, In r0 (r :: rest) -> face_candidate r0 ->
                          r_conf r0 <= c) \/
              (exists pre r0 post,
                  r :: rest = pre ++ r0 :: post /\ face_candidate r0 /\
                  bf' = Some (to_box r0) /\ c' = r_conf r0 /\
                  c < r_conf r0 /\
                  (forall r', In r' pre -> face_candidate r' ->
                              r_conf r' < r_conf r0) /\
                  (forall r', In r' post -> face_candidate r' ->
                              r_conf r' <= r_conf r0))).
    { intros Hnot Hrest.
      destruct (IH _ _ _ _ Hrest)
        as [(Hb & Hc & Hall)
           | (pre & r0 & post & Hsplit & Hcand & Hb & Hc & Hlt & Hpre & Hpost)].
      - left. split; [exact Hb|]. split; [exact Hc|].
        intros r0 [<- | Hin] Hcand; [contradiction | apply Hall; assumption].
      - right. exists (r :: pre), r0, post.
        split; [simpl; rewrite Hsplit; reflexivity|].
        split; [exact Hcand|]. split; [exact Hb|]. split; [exact Hc|].
        split; [exact Hlt|]. split; [|exact Hpost].
        intros r' [<- | Hin] Hcand';
          [contradiction | apply Hpre; assumption]. }
    destruct (Qltb (r_conf r) FACE_CONF) eqn:Hconf.
    { apply Hskip; [|exact Hloop]. intros [Hthr _].
      apply Qltb_true in Hconf. lra. }
    destruct (area (to_box r) <? MIN_FACE_PIX)%Z eqn:Harea.
    { apply Hskip; [|exact Hloop]. intros [_ Hbig].
      apply Z.ltb_lt in Harea. lia. }
    assert (Hcand : face_candidate r).
    { split; [apply Qltb_false; exact Hconf | apply Z.ltb_ge; exact Harea]. }
    clear Hskip.
    destruct (Qltb c (r_conf r)) eqn:Hbest.
    + apply Qltb_true in Hbest. right.
      destruct (IH _ _ _ _ Hloop)
        as [(Hb & Hc & Hall)
           | (pre & r0 & post & Hsplit & Hcand0 & Hb & Hc & Hlt & Hpre & Hpost)].
      * exists [], r, rest. split; [reflexivity|].
        split; [exact Hcand|]. split; [exact Hb|]. split; [exact Hc|].
        split; [exact Hbest|]. split; [intros r' []|exact Hall].
      * exists (r :: pre), r0, post.
        split; [simpl; rewrite Hsplit; reflexivity|].
        split; [exact Hcand0|]. split; [exact Hb|]. split; [exact Hc|].
        split; [lra|]. split; [|exact Hpost].
        intros r' [<- | Hin] Hcand'; [exact Hlt | apply Hpre; assumption].
    + apply Qltb_false in Hbest.
      destruct (IH _ _ _ _ Hloop)
        as [(Hb & Hc & Hall)
           | (pre & r0 & post & Hsplit & Hcand0 & Hb & Hc & Hlt & Hpre & Hpost)].
      * left. split; [exact Hb|]. split; [exact Hc|].
        intros r0 [<- | Hin] Hcand0; [exact Hbest | apply Hall; assumption].
      * right. exists (r :: pre), r0, post.
        split; [simpl; rewrite Hsplit; reflexivity|].
        split; [exact Hcand0|]. split; [exact Hb|]. split; [exact Hc|].
        split; [exact Hlt|]. split; [|exact Hpost].
        intros r' [<- | Hin] Hcand'; [lra | apply Hpre; assumption].
Qed.

(** X1.  On any list of face rows, the face stage either finds no row
    with confidence at least [FACE_CONF] and area at least
    [MIN_FACE_PIX], and then returns no box and confidence 0.0; or it
    returns the box and confidence of an accepted row that strictly
    beats every accepted row before it and is not beaten by any
    accepted row after it: among equal best candidates the first one
    wins. *)
Theorem face_stage_first_best :
  forall rows : list Row,
    (face_loop rows None 0.0 = (None, 0.0) /\
     forall r, In r rows -> ~ face_candidate r) \/
    (exists pre r post,
        rows = pre ++ r :: post /\ face_candidate r /\
        face_loop rows None 0.0 = (Some (to_box r), r_conf r) /\
        (forall r', In r' pre -> face_candidate r' -> r_conf r' < r_conf r) /\
        (forall r', In r' post -> face_candidate r' ->
                    r_conf r' <= r_conf r)).
Proof.
  intros rows.
  destruct (face_loop rows None 0.0) as [bf c] eqn:Hloop.
  destruct (face_loop_first_best rows _ _ _ _ Hloop)
    as [(Hb & Hc & Hall)
       | (pre & r & post & Hsplit & Hcand & Hb & Hc & _ & Hpre & Hpost)].
  - left. subst bf c. split; [reflexivity|].
    intros r Hin Hcand. pose proof (Hall r Hin Hcand) as Hle.
    destruct Hcand as [Hthr _]. unfold FACE_CONF in Hthr. lra.
  - right. exists pre, r, post. subst bf c.
    split; [exact Hsplit|]. split; [exact Hcand|].
    split; [reflexivity|]. split; [exact Hpre | exact Hpost].
Qed.

(** ** Priority of a fresh face, expiry of the hold *)

Lemma face_loop_accepts (rows : list Row) :
  (exists r, In r rows /\ face_candidate r) ->
  exists r, In r rows /\ face_candidate r /\
            face_loop rows None 0.0 = (Some (to_box r), r_conf r).
Proof.
  intros (r0 & Hin0 & Hcand0).
  destruct (face_loop rows None 0.0) as [bf c] eqn:Hloop.
  destruct (face_loop_first_best rows _ _ _ _ Hloop)
    as [(_ & Hc & Hall)
       | (pre & r & post & Hsplit & Hcand & Hb & Hc & _)].
  - pose proof (Hall r0 Hin0 Hcand0) as Hle. destruct Hcand0 as [Hthr _].
    unfold FACE_CONF in Hthr. lra.
  - exists r. split; [rewrite Hsplit; apply in_elt|].
    split; [exact Hcand|]. subst bf c. reflexivity.
Qed.

Lemma face_loop_rejects (rows : list Row) :
  (forall r, In r rows -> ~ face_candidate r) ->
  face_loop rows None 0.0 = (None, 0.0).
Proof.
  intros Hnone.
  destruct (face_loop rows None 0.0) as [bf c] eqn:Hloop.
  destruct (face_loop_result rows _ _ _ _ Hloop)
    as [[Hb Hc] | (r & Hin & Hcand & _)].
  - subst bf c. reflexivity.
  - exfalso. exact (Hnone r Hin Hcand).
Qed.

Lemma body_loop_rejects (rows : list Row) :
  (forall r, In r rows -> ~ person_candidate r) ->
  body_loop rows None 0.0 = (None, 0.0).
Proof.
  intros Hnone.
  destruct (body_loop rows None 0.0) as [bb c] eqn:Hloop.
  destruct (body_loop_result rows _ _ _ _ Hloop)
    as (_ & _ & [[Hb Hc] | (r & Hin & Hcand & _)]).
  - subst bb c. reflexivity.
  - exfalso. exact (Hnone r Hin Hcand).
Qed.

(** X2.  When the face detector returns an accepted row in this frame
    and the hold test reads the clock less than [FACE_HOLD_SEC] after
    the face was recorded, the cascade reports mode "face" with the
    box and confidence of this frame's best face, and remembers that
    box with the new timestamp.  The result depends neither on the
    previous state (a fresh face replaces the remembered one whatever
    their confidences) nor on the person detector's rows. *)
Theorem fresh_face_takes_priority :
  forall (st : State) (tk : Tick) (frame : Frame),
    (exists r, In r (det_f frame) /\ face_candidate r) ->
    now_hold tk - now_face tk < FACE_HOLD_SEC ->
    sel_mode (select st tk frame) = "face" /\
    sel_box (select st tk frame) = fst (face_loop (det_f frame) None 0.0) /\
    sel_conf (select st tk frame) = snd (face_loop (det_f frame) None 0.0) /\
    sel_face_box (select st tk frame) = sel_box (select st tk frame) /\
    sel_face_time (select st tk frame) = now_face tk /\
    (forall (st' : State) (bodies : list Row),
        select st' tk (mkFrame (det_f frame) bodies) = select st tk frame).
Proof.
  intros st tk frame Hface Hclock.
  destruct (face_loop_accepts _ Hface) as (r & _ & _ & Hloop).
  apply Qltb_true in Hclock.
  unfold select. cbn [det_f det_p]. rewrite Hloop, Hclock. cbn.
  repeat split; reflexivity.
Qed.

Lemma fresh_face_takes_priority_witness :
  (exists r, In r [face_row_03; face_row_09] /\ face_candidate r) /\
  sel_mode (select initial_state
              (tick_at 100 [face_row_03; face_row_09] [body_row_09])
              (mkFrame [face_row_03; face_row_09] [body_row_09]))
  = "face".
Proof.
  assert (H : exists r, In r [face_row_03; face_row_09] /\ face_candidate r).
  { exists face_row_09. split; [right; left; reflexivity|].
    split; vm_compute; discriminate. }
  split; [exact H|].
  apply (fresh_face_takes_priority initial_state
           (tick_at 100 [face_row_03; face_row_09] [body_row_09])
           (mkFrame [face_row_03; face_row_09] [body_row_09]) H).
  reflexivity.
Defined.

(** X3.  When no face row is accepted in this frame and either no face
    was ever remembered or the hold test reads the clock at least
    [FACE_HOLD_SEC] after the remembered face, the hold is inactive:
    the remembered face and its timestamp are left as they were and
    the selection is exactly what the person loop returns from
    [(None, 0.0)].  If the person detector has no qualifying row
    either, nothing is selected, the mode is "none" and the confidence
    is 0.0. *)
Theorem expired_hold_falls_back_to_body :
  forall (st : State) (tk : Tick) (frame : Frame),
    (forall r, In r (det_f frame) -> ~ face_candidate r) ->
    last_face_box st = None \/
    FACE_HOLD_SEC <= now_hold tk - last_face_time st ->
    sel_use_face (select st tk frame) = false /\
    sel_face_box (select st tk frame) = last_face_box st /\
    sel_face_time (select st tk frame) = last_face_time st /\
    sel_box (select st tk frame) = fst (body_loop (det_p frame) None 0.0) /\
    sel_conf (select st tk frame) = snd (body_loop (det_p frame) None 0.0) /\
    ((forall r, In r (det_p frame) -> ~ person_candidate r) ->
     sel_box (select st tk frame) = None /\
     sel_mode (select st tk frame) = "none" /\
     sel_conf (select st tk frame) = 0.0).
Proof.
  intros st tk frame Hnoface Hexpired.
  pose proof (face_loop_rejects _ Hnoface) as Hloop.
  destruct (select_face_stage st tk frame) as (_ & Hfb & Hft & Huse).
  rewrite Hloop in Hfb, Hft. cbn [fst] in Hfb, Hft.
  assert (Hoff : sel_use_face (select st tk frame) = false).
  { rewrite Huse, Hfb, Hft. destruct Hexpired as [Hnone | Hlate].
    - rewrite Hnone. apply andb_false_r.
    - apply Qltb_false in Hlate. rewrite Hlate. reflexivity. }
  destruct (select_body_stage st tk frame Hoff) as (Hbox & Hconf & Hmode).
  split; [exact Hoff|]. split; [exact Hfb|]. split; [exact Hft|].
  split; [exact Hbox|]. split; [exact Hconf|].
  intros Hnobody. pose proof (body_loop_rejects _ Hnobody) as Hbody.
  rewrite Hbody in Hbox, Hconf. cbn [fst snd] in Hbox, Hconf.
  split; [exact Hbox|]. split; [|exact Hconf].
  rewrite Hmode, Hbox. reflexivity.
Qed.

Lemma expired_hold_falls_back_to_body_witness :
  FACE_HOLD_SEC
  <= now_hold (tick_at 100.125 [face_row_03] [])
     - last_face_time (state_after TILT_DIR sin_zero initial_state
                         [tick_at 100 [face_row_09] []]) /\
  sel_use_face
    (select (state_after TILT_DIR sin_zero initial_state
               [tick_at 100 [face_row_09] []])
       (tick_at 100.125 [face_row_03] []) (mkFrame [face_row_03] []))
  = false.
Proof.
  assert (Hlate : FACE_HOLD_SEC
                  <= now_hold (tick_at 100.125 [face_row_03] [])
                     - last_face_time
                         (state_after TILT_DIR sin_zero initial_state
                            [tick_at 100 [face_row_09] []])).
  { vm_compute. discriminate. }
  split; [exact Hlate|].
  apply (expired_hold_falls_back_to_body
           (state_after TILT_DIR sin_zero initial_state
              [tick_at 100 [face_row_09] []])
           (tick_at 100.125 [face_row_03] []) (mkFrame [face_row_03] [])).
  - intros r [<- | []] [Hthr _]. vm_compute in Hthr. apply Hthr. reflexivity.
  - right. exact Hlate.
Defined.

(** ** The mode is one of three and agrees with the selection *)

Lemma select_mode_cases (st : State) (tk : Tick) (frame : Frame) :
  (sel_use_face (select st tk frame) = true /\
   sel_mode (select st tk frame) = "face" /\
   exists b, sel_box (select st tk frame) = Some b) \/
  (sel_use_face (select st tk frame) = false /\
   sel_mode (select st tk frame) = "body" /\
   exists b, sel_box (select st tk frame) = Some b) \/
  (sel_use_face (select st tk frame) = false /\
   sel_mode (select st tk frame) = "none" /\
   sel_box (select st tk frame) = None).
Proof.
  destruct (sel_use_face (select st tk frame)) eqn:Huse.
  - left. destruct (select_face_mode st tk frame Huse) as (Hbox & _ & Hmode).
    destruct (select_face_stage st tk frame) as (_ & _ & _ & Huse').
    rewrite Huse in Huse'. symmetry in Huse'.
    apply andb_true_iff in Huse'. destruct Huse' as [_ Hsome].
    split; [reflexivity|]. split; [exact Hmode|].
    rewrite Hbox.
    destruct (sel_face_box (select st tk frame)) as [b|];
      [exists b; reflexivity | discriminate Hsome].
  - right. destruct (select_body_stage st tk frame Huse) as (_ & _ & Hmode).
    destruct (sel_box (select st tk frame)) as [b|].
    + left. split; [reflexivity|]. split; [exact Hmode|].
      exists b. reflexivity.
    + right. split; [reflexivity|]. split; [exact Hmode | reflexivity].
Qed.

Lemma iter_mode_is_mode (tilt_direction : Z) (math_sin : Q -> Q)
      (st : State) (tk : Tick) :
  is_mode (tracking_mode st) ->
  is_mode (tracking_mode (fst (gen_frames_iter tilt_direction math_sin st tk))).
Proof.
  intros Hst. destruct (capture tk) as [frame|] eqn:Hcap.
  - destruct (iter_cascade_fields tilt_direction math_sin st tk frame Hcap)
      as (_ & _ & Hmode).
    rewrite Hmode. unfold is_mode.
    destruct (select_mode_cases st tk frame)
      as [(_ & H & _) | [(_ & H & _) | (_ & H & _)]]; rewrite H; auto.
  - unfold gen_frames_iter. rewrite Hcap. exact Hst.
Qed.

(** X4.  Over every run from the initial state, [tracking_mode] is
    "face", "body" or "none" at the end of every iteration.  In every
    processed frame the mode agrees with the selection: it is "none"
    exactly when no box was selected, "face" exactly when the hold
    window is active, and a frame in mode "face" or "body" always has
    a box. *)
Theorem tracking_mode_agrees_with_selection :
  forall (tilt_direction : Z) (math_sin : Q -> Q) (ticks : list Tick)
         (st : State) (tk : Tick) (frame : Frame),
    Forall (fun s => is_mode (tracking_mode s))
      (trace tilt_direction math_sin initial_state ticks) /\
    is_mode (sel_mode (select st tk frame)) /\
    (sel_mode (select st tk frame) = "none"
     <-> sel_box (select st tk frame) = None) /\
    (sel_mode (select st tk frame) = "face"
     <-> sel_use_face (select st tk frame) = true).
Proof.
  intros td ms ticks st tk frame. split.
  { assert (Hgen : forall s, is_mode (tracking_mode s) ->
                     Forall (fun s' => is_mode (tracking_mode s'))
                       (trace td ms s ticks)).
    { induction ticks as [|tk0 rest IH]; intros s Hs; simpl.
      - constructor.
      - pose proof (iter_mode_is_mode td ms s tk0 Hs) as Hnext.
        constructor; [exact Hnext | apply IH; exact Hnext]. }
    apply Hgen. right. right. reflexivity. }
  unfold is_mode.
  destruct (select_mode_cases st tk frame)
    as [(Hu & Hm & b & Hb) | [(Hu & Hm & b & Hb) | (Hu & Hm & Hb)]];
    rewrite Hm, Hu, Hb; repeat split; auto; intros H; discriminate H.
Qed.

(** ** Frames without a target keep the last known target *)

(** X5.  In a processed frame in which nothing is selected, whether or
    not a scan step is taken, [last_seen], [last_conf], [last_fx] and
    [last_fy] keep their previous values and the mode becomes "none":
    the status endpoint and the overlay go on reporting the confidence
    and position of the last target seen. *)
Theorem lost_target_keeps_last_known :
  forall (tilt_direction : Z) (math_sin : Q -> Q)
         (st : State) (tk : Tick) (frame : Frame),
    capture tk = Some frame ->
    sel_box (select st tk frame) = None ->
    last_seen (fst (gen_frames_iter tilt_direction math_sin st tk))
    = last_seen st /\
    last_conf (fst (gen_frames_iter tilt_direction math_sin st tk))
    = last_conf st /\
    last_fx (fst (gen_frames_iter tilt_direction math_sin st tk))
    = last_fx st /\
    last_fy (fst (gen_frames_iter tilt_direction math_sin st tk))
    = last_fy st /\
    api_status (fst (gen_frames_iter tilt_direction math_sin st tk))
    = (last_conf st, "none", last_seen st) /\
    option_map hud_conf
      (hud (snd (gen_frames_iter tilt_direction math_sin st tk)))
    = Some (last_conf st) /\
    option_map hud_pos
      (hud (snd (gen_frames_iter tilt_direction math_sin st tk)))
    = Some (last_fx st, last_fy st).
Proof.
  intros td ms st tk frame Hcap Hsel.
  assert (Hmode : sel_mode (select st tk frame) = "none").
  { destruct (select_mode_cases st tk frame)
      as [(_ & _ & b & Hb) | [(_ & _ & b & Hb) | (_ & Hm & _)]];
      [congruence | congruence | exact Hm]. }
  unfold api_status.
  destruct (Qlt_le_dec LOST_TIMEOUT (now_act tk - last_seen st)) as [Hlt|Hle].
  - rewrite (iter_scan td ms st tk frame Hcap Hsel Hlt).
    cbn. rewrite Hmode. repeat split; reflexivity.
  - rewrite (iter_idle td ms st tk frame Hcap Hsel Hle).
    cbn. rewrite Hmode. repeat split; reflexivity.
Qed.

Lemma lost_target_keeps_last_known_witness :
  sel_box
    (select (state_after TILT_DIR sin_zero initial_state
               [tick_at 100 [face_row_09] []])
       (tick_at 103 [] []) (mkFrame [] []))
  = None /\
  api_status
    (state_after TILT_DIR sin_zero initial_state
       [tick_at 100 [face_row_09] []; tick_at 103 [] []])
  = (0.9, "none", 100).
Proof.
  split; [reflexivity|].
  destruct (lost_target_keeps_last_known TILT_DIR sin_zero
              (state_after TILT_DIR sin_zero initial_state
                 [tick_at 100 [face_row_09] []])
              (tick_at 103 [] []) (mkFrame [] []) eq_refl eq_refl)
    as (_ & _ & _ & _ & Hapi & _).
  exact Hapi.
Defined.

(** ** Tracking and scanning exclude each other *)

(** X6.  In a frame with a selected box no scan step is taken, even when
    the loss timeout had expired before the frame: the scan direction
    is unchanged, [last_seen] becomes this frame's time, the target
    position and confidence are those of the selection, the iteration
    sends at most two servo writes and never sleeps, and the status is
    "Tracking". *)
Theorem tracking_frame_never_scans :
  forall (tilt_direction : Z) (math_sin : Q -> Q)
         (st : State) (tk : Tick) (frame : Frame) (b : Box),
    capture tk = Some frame ->
    sel_box (select st tk frame) = Some b ->
    scan_dir (fst (gen_frames_iter tilt_direction math_sin st tk))
    = scan_dir st /\
    last_seen (fst (gen_frames_iter tilt_direction math_sin st tk))
    = now_act tk /\
    (last_fx (fst (gen_frames_iter tilt_direction math_sin st tk)),
     last_fy (fst (gen_frames_iter tilt_direction math_sin st tk)))
    = center b /\
    last_conf (fst (gen_frames_iter tilt_direction math_sin st tk))
    = sel_conf (select st tk frame) /\
    forallb (fun e => negb (is_sleep e))
      (events (snd (gen_frames_iter tilt_direction math_sin st tk)))
    = true /\
    (List.length
       (events (snd (gen_frames_iter tilt_direction math_sin st tk)))
     <= 2)%nat /\
    option_map hud_status
      (hud (snd (gen_frames_iter tilt_direction math_sin st tk)))
    = Some "Tracking".
Proof.
  intros td ms st tk frame b Hcap Hsel.
  rewrite (iter_track td ms st tk frame Hcap b Hsel).
  cbv beta zeta.
  cbn [fst snd scan_dir last_seen last_fx last_fy last_conf events hud
       option_map draw_hud hud_status].
  rewrite <- surjective_pairing.
  split; [reflexivity|]. split; [reflexivity|]. split; [reflexivity|].
  split; [reflexivity|].
  unfold track_pan, track_tilt.
  destruct (Z.abs (fst (center b) - CX) >? CENTER_TOL_X)%Z;
    destruct (Z.abs (snd (center b) - CY) >? CENTER_TOL_Y)%Z;
    cbn; repeat split; try reflexivity; lia.
Qed.

Lemma tracking_frame_never_scans_witness :
  LOST_TIMEOUT
  < now_act (tick_at 100 [face_row_09] []) - last_seen (scanning_at 159 1) /\
  scan_dir (fst (gen_frames_iter TILT_DIR sin_zero (scanning_at 159 1)
                   (tick_at 100 [face_row_09] [])))
  = 1%Z /\
  option_map hud_status
    (hud (snd (gen_frames_iter TILT_DIR sin_zero (scanning_at 159 1)
                 (tick_at 100 [face_row_09] []))))
  = Some "Tracking".
Proof.
  split; [reflexivity|].
  destruct (tracking_frame_never_scans TILT_DIR sin_zero (scanning_at 159 1)
              (tick_at 100 [face_row_09] []) (mkFrame [face_row_09] [])
              (to_box face_row_09) eq_refl eq_refl)
    as (Hdir & _ & _ & _ & _ & _ & Hstatus).
  split; [exact Hdir | exact Hstatus].
Defined.

(** ** The scan pattern *)

Lemma scan_step_inside (math_sin : Q -> Q) (p : Q) (d : Z) :
  PAN_MIN <= p + inject_Z (SCAN_STEP * d) <= PAN_MAX ->
  fst (fst (fst (scan_step math_sin p d))) = p + inject_Z (SCAN_STEP * d) /\
  snd (fst (scan_step math_sin p d)) = d.
Proof.
  intros [Hlo Hhi]. unfold scan_step.
  apply Qltb_false in Hlo, Hhi. rewrite Hlo, Hhi.
  cbn. split; reflexivity.
Qed.

Lemma scan_step_outside (math_sin : Q -> Q) (p : Q) (d : Z) :
  PAN_MAX < p + inject_Z (SCAN_STEP * d)
  \/ p + inject_Z (SCAN_STEP * d) < PAN_MIN ->
  fst (fst (fst (scan_step math_sin p d))) == p /\
  snd (fst (scan_step math_sin p d)) = (- d)%Z.
Proof.
  intros Hout. unfold scan_step.
  assert (Hb : Qltb PAN_MAX (p + inject_Z (SCAN_STEP * d))
               || Qltb (p + inject_Z (SCAN_STEP * d)) PAN_MIN = true).
  { apply orb_true_iff.
    destruct Hout as [H | H]; [left | right]; apply Qltb_true; exact H. }
  rewrite Hb. cbv beta iota zeta. cbn [fst snd].
  split; [apply scan_step_back | lia].
Qed.

Lemma scan_step_events (math_sin : Q -> Q) (p : Q) (d : Z) :
  snd (scan_step math_sin p d)
  = [DutyCycle PAN_CH (duty (fst (fst (fst (scan_step math_sin p d)))));
     DutyCycle TILT_CH (duty (snd (fst (fst (scan_step math_sin p d)))));
     Sleep SCAN_DELAY].
Proof.
  unfold scan_step.
  destruct (Qltb PAN_MAX (p + inject_Z (SCAN_STEP * d))
            || Qltb (p + inject_Z (SCAN_STEP * d)) PAN_MIN); reflexivity.
Qed.

Lemma scan_step_dir (math_sin : Q -> Q) (p : Q) (d : Z) :
  snd (fst (scan_step math_sin p d)) = d
  \/ snd (fst (scan_step math_sin p d)) = (- d)%Z.
Proof.
  unfold scan_step.
  destruct (Qltb PAN_MAX (p + inject_Z (SCAN_STEP * d))
            || Qltb (p + inject_Z (SCAN_STEP * d)) PAN_MIN);
    cbv beta iota zeta; cbn [fst snd]; [right; lia | left; reflexivity].
Qed.

Lemma iter_scan_dir (tilt_direction : Z) (math_sin : Q -> Q)
      (st : State) (tk : Tick) :
  scan_dir (fst (gen_frames_iter tilt_direction math_sin st tk)) = scan_dir st
  \/ scan_dir (fst (gen_frames_iter tilt_direction math_sin st tk))
     = (- scan_dir st)%Z.
Proof.
  destruct (capture tk) as [frame|] eqn:Hcap.
  - destruct (sel_box (select st tk frame)) as [b|] eqn:Hsel.
    + rewrite (iter_track _ _ _ _ _ Hcap b Hsel). left. reflexivity.
    + destruct (Qlt_le_dec LOST_TIMEOUT (now_act tk - last_seen st))
        as [Hlt|Hle].
      * rewrite (iter_scan _ _ _ _ _ Hcap Hsel Hlt).
        cbv beta zeta. cbn [fst scan_dir]. apply scan_step_dir.
      * rewrite (iter_idle _ _ _ _ _ Hcap Hsel Hle). left. reflexivity.
  - unfold gen_frames_iter. rewrite Hcap. left. reflexivity.
Qed.

(** X7.  Over every run from the initial state, the scan direction is
    +1 or -1 at the end of every iteration. *)
Theorem scan_dir_is_a_sign :
  forall (tilt_direction : Z) (math_sin : Q -> Q) (ticks : list Tick),
    Forall (fun s => scan_dir s = 1%Z \/ scan_dir s = (-1)%Z)
      (trace tilt_direction math_sin initial_state ticks).
Proof.
  intros td ms ticks.
  assert (Hgen : forall s, (scan_dir s = 1%Z \/ scan_dir s = (-1)%Z) ->
                   Forall (fun s' => scan_dir s' = 1%Z \/ scan_dir s' = (-1)%Z)
                     (trace td ms s ticks)).
  { induction ticks as [|tk rest IH]; intros s Hs; simpl.
    - constructor.
    - assert (Hnext : scan_dir (fst (gen_frames_iter td ms s tk)) = 1%Z
                      \/ scan_dir (fst (gen_frames_iter td ms s tk))
                         = (-1)%Z).
      { destruct (iter_scan_dir td ms s tk) as [H | H]; rewrite H; lia. }
      constructor; [exact Hnext | apply IH; exact Hnext]. }
  apply Hgen. left. reflexivity.
Qed.

(** X8.  A scan step (processed frame, nothing selected, loss timeout
    expired) first tries [pan + SCAN_STEP * scan_dir].  If that angle
    is within the pan limits it becomes the new pan and the direction
    is kept.  If it is outside, at either end, the direction is
    reversed and pan ends where it started.  In both cases the step
    writes the new pan and tilt to the two servos and then sleeps
    [SCAN_DELAY], and [last_seen] is left alone. *)
Theorem scan_step_moves_or_bounces :
  forall (tilt_direction : Z) (math_sin : Q -> Q)
         (st : State) (tk : Tick) (frame : Frame),
    capture tk = Some frame ->
    sel_box (select st tk frame) = None ->
    LOST_TIMEOUT < now_act tk - last_seen st ->
    (PAN_MIN <= pan st + inject_Z (SCAN_STEP * scan_dir st) <= PAN_MAX ->
     pan (fst (gen_frames_iter tilt_direction math_sin st tk))
     = pan st + inject_Z (SCAN_STEP * scan_dir st) /\
     scan_dir (fst (gen_frames_iter tilt_direction math_sin st tk))
     = scan_dir st) /\
    (PAN_MAX < pan st + inject_Z (SCAN_STEP * scan_dir st)
     \/ pan st + inject_Z (SCAN_STEP * scan_dir st) < PAN_MIN ->
     pan (fst (gen_frames_iter tilt_direction math_sin st tk)) == pan st /\
     scan_dir (fst (gen_frames_iter tilt_direction math_sin st tk))
     = (- scan_dir st)%Z) /\
    events (snd (gen_frames_iter tilt_direction math_sin st tk))
    = [DutyCycle PAN_CH
         (duty (pan (fst (gen_frames_iter tilt_direction math_sin st tk))));
       DutyCycle TILT_CH
         (duty (tilt (fst (gen_frames_iter tilt_direction math_sin st tk))));
       Sleep SCAN_DELAY] /\
    last_seen (fst (gen_frames_iter tilt_direction math_sin st tk))
    = last_seen st.
Proof.
  intros td ms st tk frame Hcap Hsel Hlost.
  rewrite (iter_scan td ms st tk frame Hcap Hsel Hlost).
  cbv beta zeta. cbn [fst snd pan tilt scan_dir events last_seen].
  split; [apply scan_step_inside|].
  split; [apply scan_step_outside|].
  split; [apply scan_step_events | reflexivity].
Qed.

Lemma scan_step_moves_or_bounces_witness :
  LOST_TIMEOUT
  < now_act (tick_at 10 [] []) - last_seen (scanning_at 20.5 (-1)) /\
  pan (scanning_at 20.5 (-1))
  + inject_Z (SCAN_STEP * scan_dir (scanning_at 20.5 (-1))) < PAN_MIN /\
  pan (fst (gen_frames_iter TILT_DIR sin_zero (scanning_at 20.5 (-1))
              (tick_at 10 [] []))) == 20.5 /\
  scan_dir (fst (gen_frames_iter TILT_DIR sin_zero (scanning_at 20.5 (-1))
                   (tick_at 10 [] []))) = 1%Z.
Proof.
  split; [reflexivity|]. split; [reflexivity|].
  destruct (scan_step_moves_or_bounces TILT_DIR sin_zero
              (scanning_at 20.5 (-1)) (tick_at 10 [] []) (mkFrame [] [])
              eq_refl eq_refl eq_refl)
    as (_ & Hout & _).
  apply Hout. right. reflexivity.
Defined.

Lemma inject_Z_of_nat_nonneg (n : nat) : 0 <= inject_Z (Z.of_nat n).
Proof. unfold Qle, inject_Z. simpl. lia. Qed.

Lemma inject_Z_succ_mul (n : nat) (k : Z) :
  inject_Z (Z.of_nat (S n) * k)
  == inject_Z (Z.of_nat n) * inject_Z k + inject_Z k.
Proof.
  rewrite Nat2Z.inj_succ. unfold Z.succ.
  rewrite Z.mul_add_distr_r, Z.mul_1_l.
  rewrite inject_Z_plus, inject_Z_mult. reflexivity.
Qed.

Lemma iter_scan_pose (tilt_direction : Z) (math_sin : Q -> Q)
      (st : State) (tk : Tick) (frame : Frame) :
  capture tk = Some frame ->
  sel_box (select st tk frame) = None ->
  LOST_TIMEOUT < now_act tk - last_seen st ->
  PAN_MIN <= pan st + inject_Z (SCAN_STEP * scan_dir st) <= PAN_MAX ->
  pan (fst (gen_frames_iter tilt_direction math_sin st tk))
  = pan st + inject_Z (SCAN_STEP * scan_dir st) /\
  scan_dir (fst (gen_frames_iter tilt_direction math_sin st tk))
  = scan_dir st.
Proof.
  intros Hcap Hsel Hlost Hin.
  rewrite (iter_scan _ _ _ _ _ Hcap Hsel Hlost).
  cbv beta zeta. cbn [fst pan scan_dir].
  apply scan_step_inside. exact Hin.
Qed.

(** X9.  Consecutive scan steps sweep linearly: starting within the pan
    limits with a scan direction of +1 or -1, if the angle reached by
    [n] steps of [SCAN_STEP] in that direction is still within the
    limits, then after [n] iterations that each take a scan step pan
    has moved by exactly [n * SCAN_STEP * scan_dir] and the direction
    has not changed. *)
Theorem scan_sweep_is_linear :
  forall (tilt_direction : Z) (math_sin : Q -> Q)
         (ticks : list Tick) (st : State),
    scans_only tilt_direction math_sin st ticks ->
    scan_dir st = 1%Z \/ scan_dir st = (-1)%Z ->
    PAN_MIN <= pan st <= PAN_MAX ->
    PAN_MIN
    <= pan st
       + inject_Z (Z.of_nat (List.length ticks) * (SCAN_STEP * scan_dir st))
    <= PAN_MAX ->
    pan (state_after tilt_direction math_sin st ticks)
    == pan st
       + inject_Z (Z.of_nat (List.length ticks) * (SCAN_STEP * scan_dir st)) /\
    scan_dir (state_after tilt_direction math_sin st ticks) = scan_dir st.
Proof.
  intros td ms ticks.
  induction ticks as [|tk rest IH]; intros st Hscan Hd Hp Hend.
  - unfold state_after. cbn [gen_frames fst List.length].
    change (inject_Z (Z.of_nat 0 * (SCAN_STEP * scan_dir st))) with (0 # 1).
    split; [lra | reflexivity].
  - destruct Hscan as [(frame & Hcap & Hsel & Hlost) Hrest].
    rewrite state_after_cons.
    cbn [List.length] in *.
    pose proof (inject_Z_succ_mul (List.length rest) (SCAN_STEP * scan_dir st))
      as E.
    pose proof (inject_Z_of_nat_nonneg (List.length rest)) as HN.
    rewrite E in Hend. rewrite E. clear E.
    assert (Hin : PAN_MIN
                  <= pan st + inject_Z (SCAN_STEP * scan_dir st) <= PAN_MAX).
    { destruct Hd as [Hd | Hd]; rewrite Hd in *.
      - change (inject_Z (SCAN_STEP * 1)) with (1 # 1) in *. lra.
      - change (inject_Z (SCAN_STEP * -1)) with (-1 # 1) in *. lra. }
    destruct (iter_scan_pose td ms st tk frame Hcap Hsel Hlost Hin)
      as [Hpan1 Hdir1].
    destruct (IH (fst (gen_frames_iter td ms st tk))) as [Hpan Hdir].
    + exact Hrest.
    + rewrite Hdir1. exact Hd.
    + rewrite Hpan1. exact Hin.
    + rewrite Hpan1, Hdir1.
      rewrite (inject_Z_mult (Z.of_nat (List.length rest))). lra.
    + split; [|congruence].
      rewrite Hpan, Hpan1, Hdir1.
      rewrite (inject_Z_mult (Z.of_nat (List.length rest))). lra.
Qed.

Lemma scan_sweep_is_linear_witness :
  scans_only TILT_DIR sin_zero (scanning_at 90 1)
    [tick_at 10 [] []; tick_at 11 [] []; tick_at 12 [] []] /\
  pan (state_after TILT_DIR sin_zero (scanning_at 90 1)
         [tick_at 10 [] []; tick_at 11 [] []; tick_at 12 [] []])
  == 93.
Proof.
  assert (Hscan : scans_only TILT_DIR sin_zero (scanning_at 90 1)
                    [tick_at 10 [] []; tick_at 11 [] []; tick_at 12 [] []]).
  { cbn [scans_only].
    repeat (split; [exists (mkFrame [] []); repeat split; reflexivity|]).
    exact I. }
  split; [exact Hscan|].
  destruct (scan_sweep_is_linear TILT_DIR sin_zero
              [tick_at 10 [] []; tick_at 11 [] []; tick_at 12 [] []]
              (scanning_at 90 1) Hscan) as [Hpan _].
  - left. reflexivity.
  - split; vm_compute; discriminate.
  - split; vm_compute; discriminate.
  - rewrite Hpan. reflexivity.
Defined.

(** ** The proportional correction *)

(** X10.  In a frame with a target, starting within the pan limits: when
    the target is more than [CENTER_TOL_X] pixels right of the image
    center, pan does not increase and decreases by at most
    [GAIN_PAN] times the offset, strictly unless it is already at
    [PAN_MIN]; when the target is more than [CENTER_TOL_X] pixels left
    of the center, pan does not decrease and increases by at most
    [GAIN_PAN] times the offset, strictly unless it is already at
    [PAN_MAX]. *)
Theorem pan_correction_opposes_offset :
  forall (tilt_direction : Z) (math_sin : Q -> Q)
         (st : State) (tk : Tick) (frame : Frame) (b : Box),
    capture tk = Some frame ->
    sel_box (select st tk frame) = Some b ->
    PAN_MIN <= pan st <= PAN_MAX ->
    ((CENTER_TOL_X < fst (center b) - CX)%Z ->
     pan st - inject_Z (fst (center b) - CX) * GAIN_PAN
     <= pan (fst (gen_frames_iter tilt_direction math_sin st tk)) <= pan st /\
     (PAN_MIN < pan st ->
      pan (fst (gen_frames_iter tilt_direction math_sin st tk)) < pan st)) /\
    ((fst (center b) - CX < - CENTER_TOL_X)%Z ->
     pan st
     <= pan (fst (gen_frames_iter tilt_direction math_sin st tk))
     <= pan st - inject_Z (fst (center b) - CX) * GAIN_PAN /\
     (pan st < PAN_MAX ->
      pan st < pan (fst (gen_frames_iter tilt_direction math_sin st tk)))).
Proof.
  intros td ms st tk frame b Hcap Hsel [Hlo Hhi].
  rewrite (iter_track td ms st tk frame Hcap b Hsel).
  cbv beta zeta. cbn [fst pan].
  unfold track_pan.
  split; intros Herr.
  - assert (Hbig : (Z.abs (fst (center b) - CX) >? CENTER_TOL_X)%Z = true)
      by (apply Z.gtb_lt; lia).
    rewrite Hbig. cbn [fst].
    assert (He : inject_Z CENTER_TOL_X < inject_Z (fst (center b) - CX))
      by (rewrite <- Zlt_Qlt; exact Herr).
    change (inject_Z CENTER_TOL_X) with (8 # 1) in He.
    unfold GAIN_PAN, PAN_MIN, PAN_MAX in *.
    case_clamp 20 160 (pan st - inject_Z (fst (center b) - CX) * 0.05);
      (split; [split; lra | intros Hroom; lra]).
  - assert (Hbig : (Z.abs (fst (center b) - CX) >? CENTER_TOL_X)%Z = true)
      by (apply Z.gtb_lt; lia).
    rewrite Hbig. cbn [fst].
    assert (He : inject_Z (fst (center b) - CX) < inject_Z (- CENTER_TOL_X))
      by (rewrite <- Zlt_Qlt; exact Herr).
    change (inject_Z (- CENTER_TOL_X)) with (-8 # 1) in He.
    unfold GAIN_PAN, PAN_MIN, PAN_MAX in *.
    case_clamp 20 160 (pan st - inject_Z (fst (center b) - CX) * 0.05);
      (split; [split; lra | intros Hroom; lra]).
Qed.

Lemma pan_correction_opposes_offset_witness :
  (CENTER_TOL_X < fst (center (to_box face_row_09)) - CX)%Z /\
  PAN_MIN < pan initial_state /\
  pan (fst (gen_frames_iter TILT_DIR sin_zero initial_state
              (tick_at 100 [face_row_09] []))) < pan initial_state.
Proof.
  split; [reflexivity|]. split; [reflexivity|].
  destruct (pan_correction_opposes_offset TILT_DIR sin_zero initial_state
              (tick_at 100 [face_row_09] []) (mkFrame [face_row_09] [])
              (to_box face_row_09) eq_refl eq_refl) as [Hright _].
  - split; vm_compute; discriminate.
  - destruct Hright as [_ Hstrict]; [reflexivity|].
    apply Hstrict. reflexivity.
Defined.

(** X11.  In a frame with a target whose vertical offset from the image
    center exceeds [CENTER_TOL_Y] in absolute value, starting within
    the tilt limits: tilt moves in the direction of
    [tilt_direction * offset] and by at most [GAIN_TILT] times its
    magnitude.  With the shipped [TILT_DIR = -1], a target below the
    center (positive offset) never raises the tilt angle. *)
Theorem tilt_correction_follows_direction :
  forall (tilt_direction : Z) (math_sin : Q -> Q)
         (st : State) (tk : Tick) (frame : Frame) (b : Box),
    capture tk = Some frame ->
    sel_box (select st tk frame) = Some b ->
    TILT_MIN <= tilt st <= TILT_MAX ->
    (CENTER_TOL_Y < Z.abs (snd (center b) - CY))%Z ->
    ((0 <= tilt_direction * (snd (center b) - CY))%Z ->
     tilt st
     <= tilt (fst (gen_frames_iter tilt_direction math_sin st tk))
     <= tilt st
        + inject_Z (tilt_direction * (snd (center b) - CY)) * GAIN_TILT) /\
    ((tilt_direction * (snd (center b) - CY) <= 0)%Z ->
     tilt st + inject_Z (tilt_direction * (snd (center b) - CY)) * GAIN_TILT
     <= tilt (fst (gen_frames_iter tilt_direction math_sin st tk))
     <= tilt st).
Proof.
  intros td ms st tk frame b Hcap Hsel [Hlo Hhi] Herr.
  rewrite (iter_track td ms st tk frame Hcap b Hsel).
  cbv beta zeta. cbn [fst tilt].
  unfold track_tilt.
  assert (Hbig : (Z.abs (snd (center b) - CY) >? CENTER_TOL_Y)%Z = true)
    by (apply Z.gtb_lt; exact Herr).
  rewrite Hbig. cbn [fst].
  unfold GAIN_TILT, TILT_MIN, TILT_MAX in *.
  split; intros Hsign.
  - assert (He : inject_Z 0 <= inject_Z (td * (snd (center b) - CY)))
      by (rewrite <- Zle_Qle; exact Hsign).
    change (inject_Z 0) with (0 # 1) in He.
    case_clamp 50 130
      (tilt st + inject_Z (td * (snd (center b) - CY)) * 0.05); lra.
  - assert (He : inject_Z (td * (snd (center b) - CY)) <= inject_Z 0)
      by (rewrite <- Zle_Qle; exact Hsign).
    change (inject_Z 0) with (0 # 1) in He.
    case_clamp 50 130
      (tilt st + inject_Z (td * (snd (center b) - CY)) * 0.05); lra.
Qed.

Lemma tilt_correction_follows_direction_witness :
  (CENTER_TOL_Y < Z.abs (snd (center (mkBox 100 150 200 200)) - CY))%Z /\
  tilt (fst (gen_frames_iter TILT_DIR sin_zero
               (mkState 90 90 1 0 100 (Some (mkBox 100 150 200 200))
                  0 CX CY "none")
               (tick_at 100.0625 [] [])))
  <= 90.
Proof.
  split; [reflexivity|].
  destruct (tilt_correction_follows_direction TILT_DIR sin_zero
              (mkState 90 90 1 0 100 (Some (mkBox 100 150 200 200))
                 0 CX CY "none")
              (tick_at 100.0625 [] []) (mkFrame [] [])
              (mkBox 100 150 200 200) eq_refl eq_refl) as [_ Hdown].
  - split; vm_compute; discriminate.
  - reflexivity.
  - apply Hdown. vm_compute. discriminate.
Defined.

(** ** The servo helper is monotone *)

Lemma clamp_angle_monotone (a1 a2 : Q) :
  a1 <= a2 -> clamp_angle a1 <= clamp_angle a2.
Proof.
  intros Hle. unfold clamp_angle.
  case_clamp 0.0 180.0 a1; case_clamp 0.0 180.0 a2; lra.
Qed.

(** X12.  [set_angle] preserves the order of angles: a larger angle
    never gives a shorter pulse nor a smaller duty cycle, also across
    the two ends of the clamp. *)
Theorem set_angle_is_monotone :
  forall a1 a2 : Q,
    a1 <= a2 ->
    pulse_us a1 <= pulse_us a2 /\ (duty a1 <= duty a2)%Z.
Proof.
  intros a1 a2 Hle.
  pose proof (clamp_angle_monotone a1 a2 Hle) as Hc.
  assert (Hp : pulse_us a1 <= pulse_us a2).
  { unfold pulse_us.
    assert (E1 : clamp_angle a1 / 180.0 == clamp_angle a1 * (1 # 180))
      by field.
    assert (E2 : clamp_angle a2 / 180.0 == clamp_angle a2 * (1 # 180))
      by field.
    rewrite E1, E2. lra. }
  split; [exact Hp|].
  unfold duty.
  destruct (pulse_us_bounds a1) as [Hlo1 _].
  destruct (pulse_us_bounds a2) as [Hlo2 _].
  assert (F1 : pulse_us a1 * 65535.0 / 20000.0
               == pulse_us a1 * (65535 # 20000)) by field.
  assert (F2 : pulse_us a2 * 65535.0 / 20000.0
               == pulse_us a2 * (65535 # 20000)) by field.
  rewrite !Qtrunc_floor by (rewrite ?F1, ?F2; lra).
  apply Qfloor_resp_le. rewrite F1, F2. lra.
Qed.

Lemma set_angle_is_monotone_witness :
  PAN_MIN <= PAN_MAX /\ (duty PAN_MIN <= duty PAN_MAX)%Z.
Proof.
  split; [vm_compute; discriminate|].
  apply (set_angle_is_monotone PAN_MIN PAN_MAX).
  vm_compute. discriminate.
Defined.

(** ** The loop never reaches the clamp of [set_angle] *)

Lemma pulse_linear_in_range (a : Q) : 0 <= a <= 180 -> pulse_is_linear a.
Proof.
  intros [Hlo Hhi]. unfold pulse_is_linear, pulse_us.
  assert (E : clamp_angle a / 180.0 == clamp_angle a * (1 # 180)) by field.
  rewrite E.
  assert (Hc : clamp_angle a == a).
  { unfold clamp_angle. case_clamp 0.0 180.0 a; lra. }
  rewrite Hc. lra.
Qed.

(** X13.  Over every run from the initial state, the pan and tilt angles
    at the end of every iteration lie inside [[0, 180]], so [set_angle]
    converts them without clamping: the pulse is [500 + angle * 1900 / 180],
    between 711 and 2189 microseconds for pan and between 1027 and 1873
    microseconds for tilt. *)
Theorem loop_pose_is_never_clamped_by_set_angle :
  forall (tilt_direction : Z) (math_sin : Q -> Q) (ticks : list Tick),
    Forall (fun s =>
              pulse_is_linear (pan s) /\ pulse_is_linear (tilt s) /\
              711 <= pulse_us (pan s) <= 2189 /\
              1027 <= pulse_us (tilt s) <= 1873)
      (trace tilt_direction math_sin initial_state ticks).
Proof.
  intros td ms ticks.
  apply (Forall_impl _ (P := pose_in_bounds));
    [|apply trace_pose_in_bounds, initial_pose_in_bounds].
  intros s [[Hp1 Hp2] [Ht1 Ht2]].
  unfold PAN_MIN, PAN_MAX, TILT_MIN, TILT_MAX in *.
  assert (Lp : pulse_is_linear (pan s))
    by (apply pulse_linear_in_range; split; lra).
  assert (Lt : pulse_is_linear (tilt s))
    by (apply pulse_linear_in_range; split; lra).
  split; [exact Lp|]. split; [exact Lt|].
  unfold pulse_is_linear in Lp, Lt. rewrite Lp, Lt.
  split; split; lra.
Qed.

(** ** The servos are told every change of the pose *)

(** Solves [Forall (commands_pose p t) evs] on an explicit list. *)
Ltac solve_commands :=
  repeat first [apply Forall_nil | apply Forall_cons];
  try exact I;
  try (left; split; reflexivity);
  try (right; split; reflexivity).

(** X14.  In every iteration, each servo write carries the duty cycle
    of the pan angle stored at the end of the iteration, on the pan
    channel, or that of the stored tilt angle, on the tilt channel; and
    whenever the stored pan (resp. tilt) angle differs from the one
    before the iteration, that write was sent. *)
Theorem servo_writes_match_stored_pose :
  forall (tilt_direction : Z) (math_sin : Q -> Q) (st : State) (tk : Tick),
    Forall
      (commands_pose
         (pan (fst (gen_frames_iter tilt_direction math_sin st tk)))
         (tilt (fst (gen_frames_iter tilt_direction math_sin st tk))))
      (events (snd (gen_frames_iter tilt_direction math_sin st tk))) /\
    (pan (fst (gen_frames_iter tilt_direction math_sin st tk)) <> pan st ->
     In (DutyCycle PAN_CH
           (duty (pan (fst (gen_frames_iter tilt_direction math_sin st tk)))))
        (events (snd (gen_frames_iter tilt_direction math_sin st tk)))) /\
    (tilt (fst (gen_frames_iter tilt_direction math_sin st tk)) <> tilt st ->
     In (DutyCycle TILT_CH
           (duty (tilt (fst (gen_frames_iter tilt_direction math_sin st tk)))))
        (events (snd (gen_frames_iter tilt_direction math_sin st tk)))).
Proof.
  intros td ms st tk.
  destruct (capture tk) as [frame|] eqn:Hcap.
  - destruct (sel_box (select st tk frame)) as [b|] eqn:Hsel.
    + rewrite (iter_track td ms st tk frame Hcap b Hsel).
      cbv beta zeta. cbn [fst snd pan tilt events].
      unfold track_pan, track_tilt.
      destruct (Z.abs (fst (center b) - CX) >? CENTER_TOL_X)%Z;
        destruct (Z.abs (snd (center b) - CY) >? CENTER_TOL_Y)%Z;
        cbn [fst snd app set_angle];
        (split; [solve_commands|]);
        split; intros Hneq; cbn; auto; contradiction Hneq; reflexivity.
    + destruct (Qlt_le_dec LOST_TIMEOUT (now_act tk - last_seen st))
        as [Hlt|Hle].
      * rewrite (iter_scan td ms st tk frame Hcap Hsel Hlt).
        cbv beta zeta. cbn [fst snd pan tilt events].
        rewrite scan_step_events.
        split; [solve_commands|].
        split; intros _; cbn; auto.
      * rewrite (iter_idle td ms st tk frame Hcap Hsel Hle).
        cbv beta zeta. cbn [fst snd pan tilt events].
        split; [constructor|].
        split; intros Hneq; contradiction Hneq; reflexivity.
  - unfold gen_frames_iter. rewrite Hcap. cbn [fst snd events].
    split; [solve_commands|].
    split; intros Hneq; contradiction Hneq; reflexivity.
Qed.

(** ** Status text and behaviour under a non-decreasing clock *)

(** X15.  In a processed frame with no target, if the clock read by the
    status test is not earlier than the one read by the scan test, the
    status text agrees with what the iteration did in one direction
    each way: a frame labelled "Target lost (hold)" moved nothing and
    sent nothing, and a frame that took a scan step is labelled
    "Scanning".  The label is always one of these two. *)
Theorem status_agrees_with_scan_under_monotone_clock :
  forall (tilt_direction : Z) (math_sin : Q -> Q)
         (st : State) (tk : Tick) (frame : Frame),
    capture tk = Some frame ->
    sel_box (select st tk frame) = None ->
    now_act tk <= now_status tk ->
    (option_map hud_status
       (hud (snd (gen_frames_iter tilt_direction math_sin st tk)))
     = Some "Target lost (hold)" ->
     pan (fst (gen_frames_iter tilt_direction math_sin st tk)) = pan st /\
     tilt (fst (gen_frames_iter tilt_direction math_sin st tk)) = tilt st /\
     scan_dir (fst (gen_frames_iter tilt_direction math_sin st tk))
     = scan_dir st /\
     events (snd (gen_frames_iter tilt_direction math_sin st tk)) = []) /\
    (LOST_TIMEOUT < now_act tk - last_seen st ->
     option_map hud_status
       (hud (snd (gen_frames_iter tilt_direction math_sin st tk)))
     = Some "Scanning") /\
    (option_map hud_status
       (hud (snd (gen_frames_iter tilt_direction math_sin st tk)))
     = Some "Target lost (hold)"
     \/ option_map hud_status
          (hud (snd (gen_frames_iter tilt_direction math_sin st tk)))
        = Some "Scanning").
Proof.
  intros td ms st tk frame Hcap Hsel Hclock.
  destruct (Qlt_le_dec LOST_TIMEOUT (now_act tk - last_seen st)) as [Hlt|Hle].
  - rewrite (iter_scan td ms st tk frame Hcap Hsel Hlt).
    cbv beta zeta.
    cbn [fst snd pan tilt scan_dir events hud option_map draw_hud hud_status].
    assert (Hs : status_text false (now_status tk) (last_seen st)
                 = "Scanning").
    { unfold status_text.
      assert (Hge : LOST_TIMEOUT <= now_status tk - last_seen st) by lra.
      apply Qltb_false in Hge. rewrite Hge. reflexivity. }
    rewrite Hs. split; [intros H; discriminate H|].
    split; [intros _; reflexivity | right; reflexivity].
  - rewrite (iter_idle td ms st tk frame Hcap Hsel Hle).
    cbv beta zeta.
    cbn [fst snd pan tilt scan_dir events hud option_map draw_hud hud_status].
    split; [intros _; repeat split; reflexivity|].
    split; [intros Hlt; lra|].
    unfold status_text.
    destruct (Qltb (now_status tk - last_seen st) LOST_TIMEOUT);
      [left | right]; reflexivity.
Qed.

Lemma status_agrees_with_scan_under_monotone_clock_witness :
  now_act (tick_at 10 [] []) <= now_status (tick_at 10 [] []) /\
  LOST_TIMEOUT < now_act (tick_at 10 [] []) - last_seen initial_state /\
  option_map hud_status
    (hud (snd (gen_frames_iter TILT_DIR sin_zero initial_state
                 (tick_at 10 [] []))))
  = Some "Scanning".
Proof.
  assert (Hclock : now_act (tick_at 10 [] []) <= now_status (tick_at 10 [] []))
    by (vm_compute; discriminate).
  split; [exact Hclock|]. split; [reflexivity|].
  destruct (status_agrees_with_scan_under_monotone_clock TILT_DIR sin_zero
              initial_state (tick_at 10 [] []) (mkFrame [] [])
              eq_refl eq_refl Hclock) as (_ & Hscan & _).
  apply Hscan. reflexivity.
Defined.

(** ** A failed JPEG encoding only drops the frame *)

(** X16.  The result of [cv2.imencode] decides only whether the
    iteration yields an MJPEG part.  The state at the end of the
    iteration, the servo writes and sleeps, and the text drawn on the
    frame are the same whether the encoding succeeds or fails; a part
    is yielded exactly when the capture succeeded and the encoding
    did. *)
Theorem encode_failure_only_drops_the_frame :
  forall (tilt_direction : Z) (math_sin : Q -> Q)
         (st : State) (tk : Tick) (ok : bool),
    fst (gen_frames_iter tilt_direction math_sin st (with_encode_ok tk ok))
    = fst (gen_frames_iter tilt_direction math_sin st tk) /\
    events (snd (gen_frames_iter tilt_direction math_sin st
                   (with_encode_ok tk ok)))
    = events (snd (gen_frames_iter tilt_direction math_sin st tk)) /\
    hud (snd (gen_frames_iter tilt_direction math_sin st
                (with_encode_ok tk ok)))
    = hud (snd (gen_frames_iter tilt_direction math_sin st tk)) /\
    yielded (snd (gen_frames_iter tilt_direction math_sin st tk))
    = is_not_None (capture tk) && encode_ok tk.
Proof.
  intros td ms st tk ok.
  unfold gen_frames_iter, with_encode_ok, select.
  cbn [capture now_face now_hold now_act now_status encode_ok].
  destruct (capture tk) as [frame|]; [|repeat split; reflexivity].
  destruct (face_loop (det_f frame) None 0.0) as [bf c].
  destruct bf as [fb|];
    [destruct (Qltb (now_hold tk - now_face tk) FACE_HOLD_SEC)
    | destruct (Qltb (now_hold tk - last_face_time st) FACE_HOLD_SEC);
      destruct (last_face_box st) as [lb|]];
    cbn;
    try (destruct (body_loop (det_p frame) None 0.0) as [[bb|] bc]; cbn);
    repeat match goal with
      | |- context [center ?b] => destruct (center b) as [? ?]
      | |- context [track_pan ?p ?x] => destruct (track_pan p x) as [? ?]
      | |- context [track_tilt ?d ?t ?y] =>
          destruct (track_tilt d t y) as [? ?]
      | |- context [Qltb LOST_TIMEOUT ?x] => destruct (Qltb LOST_TIMEOUT x)
      | |- context [scan_step ?m ?p ?d] =>
          destruct (scan_step m p d) as [[[? ?] ?] ?]
      end;
    repeat split; reflexivity.
Qed.

(** ** Shutdown *)

Lemma iter_events_on_servo_channel (tilt_direction : Z) (math_sin : Q -> Q)
      (st : State) (tk : Tick) :
  Forall on_servo_channel
    (events (snd (gen_frames_iter tilt_direction math_sin st tk))).
Proof.
  unfold gen_frames_iter.
  destruct (capture tk) as [frame|]; [|repeat constructor].
  destruct (sel_box (select st tk frame)) as [b|].
  - destruct (center b) as [fx fy]. unfold track_pan, track_tilt.
    destruct (Z.abs (fx - CX) >? CENTER_TOL_X)%Z;
      destruct (Z.abs (fy - CY) >? CENTER_TOL_Y)%Z; cbn [snd events app];
      repeat first [apply Forall_nil | apply Forall_cons];
      cbn; auto.
  - destruct (Qltb LOST_TIMEOUT (now_act tk - last_seen st));
      [|constructor].
    pose proof (scan_step_events math_sin (pan st) (scan_dir st)) as Hev.
    destruct (scan_step math_sin (pan st) (scan_dir st))
      as [[[p' t'] d'] ev].
    cbn [snd events] in *. rewrite Hev.
    repeat first [apply Forall_nil | apply Forall_cons]; cbn; auto.
Qed.

(** X17.  The shutdown block writes duty cycle 0 to the pan and to the
    tilt channel.  Every servo write of every iteration goes to one of
    these two channels, so each channel the loop drives is released at
    shutdown; and no iteration ever writes the value 0 itself. *)
Theorem shutdown_releases_every_driven_channel :
  forall (tilt_direction : Z) (math_sin : Q -> Q)
         (st : State) (tk : Tick) (ch d : Z),
    In (DutyCycle ch d)
       (events (snd (gen_frames_iter tilt_direction math_sin st tk))) ->
    In (DutyCycle ch 0) shutdown /\ d <> 0%Z.
Proof.
  intros td ms st tk ch d Hin.
  pose proof (iter_events_on_servo_channel td ms st tk) as Hch.
  pose proof (iter_events_duty_safe td ms st tk) as Hsafe.
  rewrite Forall_forall in Hch, Hsafe.
  specialize (Hch _ Hin). specialize (Hsafe _ Hin).
  cbn in Hch, Hsafe. split; [|lia].
  unfold shutdown. cbn [map].
  destruct Hch as [-> | ->]; [left | right; left]; reflexivity.
Qed.

Lemma shutdown_releases_every_driven_channel_witness :
  In (DutyCycle 0 4733)
     (events (snd (gen_frames_iter TILT_DIR sin_zero initial_state
                     (tick_at 100 [face_row_09] [])))) /\
  In (DutyCycle 0 0) shutdown.
Proof.
  assert (Hin : In (DutyCycle 0 4733)
                  (events (snd (gen_frames_iter TILT_DIR sin_zero
                                  initial_state
                                  (tick_at 100 [face_row_09] []))))).
  { left. reflexivity. }
  split; [exact Hin|].
  apply (shutdown_releases_every_driven_channel TILT_DIR sin_zero
           initial_state (tick_at 100 [face_row_09] []) 0 4733 Hin).
Defined.

(** ** Boxes inside the frame and the size of one correction *)

Lemma Qtrunc_scaled_bounds (x : Q) (w : Z) :
  (0 <= w)%Z -> 0 <= x -> x <= 1 ->
  (0 <= Qtrunc (x * inject_Z w) <= w)%Z.
Proof.
  intros Hw Hx0 Hx1.
  assert (Hq : 0 <= inject_Z w)
    by (change (inject_Z 0 <= inject_Z w); rewrite <- Zle_Qle; exact Hw).
  assert (H0 : 0 <= x * inject_Z w) by (apply Qmult_le_0_compat; assumption).
  assert (H1 : x * inject_Z w <= inject_Z w).
  { rewrite <- (Qmult_1_l (inject_Z w)) at 2.
    apply Qmult_le_compat_r; assumption. }
  rewrite Qtrunc_floor by exact H0. split.
  - change 0%Z with (Qfloor (inject_Z 0)). apply Qfloor_resp_le. exact H0.
  - rewrite <- (Qfloor_Z w) at 2. apply Qfloor_resp_le. exact H1.
Qed.

Lemma Qtrunc_scaled_monotone (x y : Q) (w : Z) :
  (0 <= w)%Z -> 0 <= x -> x <= y ->
  (Qtrunc (x * inject_Z w) <= Qtrunc (y * inject_Z w))%Z.
Proof.
  intros Hw Hx Hxy.
  assert (Hq : 0 <= inject_Z w)
    by (change (inject_Z 0 <= inject_Z w); rewrite <- Zle_Qle; exact Hw).
  assert (H0 : 0 <= x * inject_Z w) by (apply Qmult_le_0_compat; assumption).
  assert (Hle : x * inject_Z w <= y * inject_Z w)
    by (apply Qmult_le_compat_r; assumption).
  rewrite !Qtrunc_floor by lra.
  apply Qfloor_resp_le. exact Hle.
Qed.

Lemma center_inside (b : Box) :
  (x1 b <= x2 b)%Z -> (y1 b <= y2 b)%Z ->
  (x1 b <= fst (center b) <= x2 b)%Z /\ (y1 b <= snd (center b) <= y2 b)%Z.
Proof.
  intros Hx Hy. unfold center. cbn [fst snd].
  pose proof (Z.div_mod (x1 b + x2 b) 2) as Dx.
  pose proof (Z.mod_pos_bound (x1 b + x2 b) 2) as Mx.
  pose proof (Z.div_mod (y1 b + y2 b) 2) as Dy.
  pose proof (Z.mod_pos_bound (y1 b + y2 b) 2) as My.
  lia.
Qed.

(** X18.  A detector row whose normalised corners lie in the unit
    square, in order, is scaled and truncated to a pixel box that lies
    inside the 300 x 225 frame with its corners in order, and the
    center computed for such a box lies inside the box. *)
Theorem row_in_frame_gives_box_in_frame :
  forall r : Row,
    row_in_frame r ->
    box_in_frame (to_box r) /\
    (x1 (to_box r) <= fst (center (to_box r)) <= x2 (to_box r))%Z /\
    (y1 (to_box r) <= snd (center (to_box r)) <= y2 (to_box r))%Z.
Proof.
  intros r (Hx0 & Hx12 & Hx1 & Hy0 & Hy12 & Hy1).
  assert (Hw : (0 <= CAM_W)%Z) by (unfold CAM_W; lia).
  assert (Hh : (0 <= CAM_H)%Z) by (unfold CAM_H; lia).
  assert (Hbox : box_in_frame (to_box r)).
  { unfold box_in_frame, to_box. cbn [x1 y1 x2 y2].
    pose proof (Qtrunc_scaled_bounds (r_x1 r) CAM_W Hw) as A1.
    pose proof (Qtrunc_scaled_bounds (r_x2 r) CAM_W Hw) as A2.
    pose proof (Qtrunc_scaled_bounds (r_y1 r) CAM_H Hh) as B1.
    pose proof (Qtrunc_scaled_bounds (r_y2 r) CAM_H Hh) as B2.
    pose proof (Qtrunc_scaled_monotone (r_x1 r) (r_x2 r) CAM_W Hw Hx0 Hx12)
      as Mx.
    pose proof (Qtrunc_scaled_monotone (r_y1 r) (r_y2 r) CAM_H Hh Hy0 Hy12)
      as My.
    assert (0 <= r_x2 r) by lra. assert (r_x1 r <= 1) by lra.
    assert (0 <= r_y2 r) by lra. assert (r_y1 r <= 1) by lra.
    repeat split; try apply A1; try apply A2; try apply B1; try apply B2;
      assumption. }
  split; [exact Hbox|].
  destruct Hbox as (_ & Hx & _ & _ & Hy & _).
  apply center_inside; assumption.
Qed.

Lemma row_in_frame_gives_box_in_frame_witness :
  row_in_frame face_row_09 /\ box_in_frame (to_box face_row_09).
Proof.
  assert (H : row_in_frame face_row_09).
  { repeat split; vm_compute; discriminate. }
  split; [exact H|].
  apply (row_in_frame_gives_box_in_frame face_row_09 H).
Defined.

(** X19.  In a frame whose target box lies inside the frame, starting
    within the mechanical limits and with a tilt direction of -1, 0 or
    +1, one iteration changes pan by at most 7.5 degrees and tilt by at
    most 5.65 degrees. *)
Theorem one_correction_is_bounded :
  forall (tilt_direction : Z) (math_sin : Q -> Q)
         (st : State) (tk : Tick) (frame : Frame) (b : Box),
    capture tk = Some frame ->
    sel_box (select st tk frame) = Some b ->
    box_in_frame b ->
    pose_in_bounds st ->
    (-1 <= tilt_direction <= 1)%Z ->
    pan st - 7.5
    <= pan (fst (gen_frames_iter tilt_direction math_sin st tk))
    <= pan st + 7.5 /\
    tilt st - 5.65
    <= tilt (fst (gen_frames_iter tilt_direction math_sin st tk))
    <= tilt st + 5.65.
Proof.
  intros td ms st tk frame b Hcap Hsel Hbox [[Hp1 Hp2] [Ht1 Ht2]] Htd.
  rewrite (iter_track td ms st tk frame Hcap b Hsel).
  cbv beta zeta. cbn [fst pan tilt].
  destruct Hbox as (Hx0 & Hx12 & Hx1 & Hy0 & Hy12 & Hy1).
  destruct (center_inside b Hx12 Hy12) as [Hcx Hcy].
  unfold PAN_MIN, PAN_MAX, TILT_MIN, TILT_MAX in *.
  split.
  - unfold track_pan.
    destruct (Z.abs (fst (center b) - CX) >? CENTER_TOL_X)%Z;
      cbn [fst]; [|lra].
    assert (He : (-150 <= fst (center b) - CX <= 150)%Z)
      by (unfold CX, CAM_W in *; change (300 / 2)%Z with 150%Z; lia).
    destruct He as [He1 He2].
    rewrite Zle_Qle in He1, He2.
    change (inject_Z (-150)) with (-150 # 1) in He1.
    change (inject_Z 150) with (150 # 1) in He2.
    unfold GAIN_PAN, PAN_MIN, PAN_MAX.
    case_clamp 20 160 (pan st - inject_Z (fst (center b) - CX) * 0.05);
      lra.
  - unfold track_tilt.
    destruct (Z.abs (snd (center b) - CY) >? CENTER_TOL_Y)%Z;
      cbn [fst]; [|lra].
    assert (He : (-113 <= td * (snd (center b) - CY) <= 113)%Z)
      by (unfold CY, CAM_H in *; change (225 / 2)%Z with 112%Z; nia).
    destruct He as [He1 He2].
    rewrite Zle_Qle in He1, He2.
    change (inject_Z (-113)) with (-113 # 1) in He1.
    change (inject_Z 113) with (113 # 1) in He2.
    unfold GAIN_TILT, TILT_MIN, TILT_MAX.
    case_clamp 50 130
      (tilt st + inject_Z (td * (snd (center b) - CY)) * 0.05); lra.
Qed.

Lemma one_correction_is_bounded_witness :
  box_in_frame (to_box face_row_09) /\
  pose_in_bounds initial_state /\
  pan initial_state - 7.5
  <= pan (fst (gen_frames_iter TILT_DIR sin_zero initial_state
                 (tick_at 100 [face_row_09] []))).
Proof.
  assert (Hbox : box_in_frame (to_box face_row_09)).
  { repeat split; vm_compute; discriminate. }
  split; [exact Hbox|]. split; [exact initial_pose_in_bounds|].
  destruct (one_correction_is_bounded TILT_DIR sin_zero initial_state
              (tick_at 100 [face_row_09] []) (mkFrame [face_row_09] [])
              (to_box face_row_09) eq_refl eq_refl Hbox
              initial_pose_in_bounds) as [[Hlo _] _].
  - split; vm_compute; discriminate.
  - exact Hlo.
Defined.

(** ** Amplitude of the scan tilt *)

(** X20.  If the sine returns values between -1 and 1, the tilt angle
    set by a scan step is [TILT_CENTER + SCAN_RANGE_TILT * sin(pi *
    SCAN_WAVES * t_norm)] for the pan angle reached by that step, with
    [t_norm = (pan - PAN_CENTER) / SCAN_RANGE_PAN]; it lies between 60
    and 120 degrees, so the clamp to the tilt limits that follows never
    changes it. *)
Theorem scan_tilt_stays_within_amplitude :
  forall (tilt_direction : Z) (math_sin : Q -> Q)
         (st : State) (tk : Tick) (frame : Frame),
    (forall x, -1 <= math_sin x <= 1) ->
    capture tk = Some frame ->
    sel_box (select st tk frame) = None ->
    LOST_TIMEOUT < now_act tk - last_seen st ->
    tilt (fst (gen_frames_iter tilt_direction math_sin st tk))
    == TILT_CENTER
       + SCAN_RANGE_TILT
         * math_sin
             (math_pi * SCAN_WAVES
              * ((pan (fst (gen_frames_iter tilt_direction math_sin st tk))
                  - PAN_CENTER) / SCAN_RANGE_PAN)) /\
    60 <= tilt (fst (gen_frames_iter tilt_direction math_sin st tk)) <= 120.
Proof.
  intros td ms st tk frame Hsin Hcap Hsel Hlost.
  rewrite (iter_scan td ms st tk frame Hcap Hsel Hlost).
  cbv beta zeta. cbn [fst snd pan tilt].
  unfold scan_step.
  destruct (Qltb PAN_MAX (pan st + inject_Z (SCAN_STEP * scan_dir st))
            || Qltb (pan st + inject_Z (SCAN_STEP * scan_dir st)) PAN_MIN);
    cbv beta iota zeta; cbn [fst snd];
    unfold TILT_MIN, TILT_MAX, TILT_CENTER, SCAN_RANGE_TILT;
    match goal with
    | |- context [ms ?x] =>
        pose proof (Hsin x) as Hb; remember (ms x) as s eqn:Es; clear Es
    end;
    case_clamp 50 130 (90 + 30 * s); lra.
Qed.

Lemma scan_tilt_stays_within_amplitude_witness :
  (forall x, -1 <= sin_zero x <= 1) /\
  60 <= tilt (fst (gen_frames_iter TILT_DIR sin_zero (scanning_at 90 1)
                     (tick_at 10 [] []))) <= 120.
Proof.
  assert (Hsin : forall x, -1 <= sin_zero x <= 1).
  { intros x. split; vm_compute; discriminate. }
  split; [exact Hsin|].
  apply (scan_tilt_stays_within_amplitude TILT_DIR sin_zero
           (scanning_at 90 1) (tick_at 10 [] []) (mkFrame [] [])
           Hsin eq_refl eq_refl eq_refl).
Defined.
